(** * tiny-url: the Cloudflare worker of [src/worker.js]

    A shallow embedding of the request handler [fetch] and of the
    [levenshtein] helper nested in it, with the properties of the
    redirector's specification stated against them. *)

From Stdlib Require Import List Arith Bool Lia Ascii String.
Import ListNotations.

Set Implicit Arguments.

(** ** JavaScript completions and loops *)

(** What a call or a statement may do: return or throw. *)
Inductive completion (T : Type) : Type :=
  | Returns (t : T)
  | Throws.
Arguments Throws {T}.

Definition bind {St T : Type} (c : completion St) (k : St -> completion T) :
    completion T :=
  match c with
  | Returns s => k s
  | Throws => Throws
  end.

Notation "x <- e ;; k" := (bind e (fun x => k))
  (at level 61, e at next level, right associativity).

(** [for (let i = lo; ...; i++) body], run [count] times from [lo].  The
    body works on the state; a throw leaves the loop. *)
Fixpoint for_loop {St : Type} (i count : nat) (body : nat -> St -> completion St)
    (s : St) : completion St :=
  match count with
  | 0 => Returns s
  | S c =>
      match body i s with
      | Returns s' => for_loop (S i) c body s'
      | Throws => Throws
      end
  end.

(** [array.filter(keep)]: the callback is called on each element in
    order, and a throw of the callback leaves [filter]. *)
Fixpoint Array_filter {T : Type} (keep : T -> completion bool) (l : list T) :
    completion (list T) :=
  match l with
  | [] => Returns []
  | x :: l' =>
      k <- keep x ;;
      rest <- Array_filter keep l' ;;
      Returns (if k then x :: rest else rest)
  end.

(** ** Numbers

    The numbers of the matrix are lengths and edit counts, far below 2^53,
    where the arithmetic of doubles is exact; the other number they can
    become is [NaN]. *)
Inductive number : Type :=
  | Num (n : nat)
  | NaN.

(** [x + n]. *)
Definition plus (x : number) (n : nat) : number :=
  match x with
  | Num v => Num (v + n)
  | NaN => NaN
  end.

(** [Math.min(x, y, z)]: [NaN] as soon as one argument is. *)
Definition Math_min (x y z : number) : number :=
  match x, y, z with
  | Num u, Num v, Num w => Num (Nat.min u (Nat.min v w))
  | _, _, _ => NaN
  end.

(** [x <= n]: false on [NaN]. *)
Definition at_most (x : number) (n : nat) : bool :=
  match x with
  | Num v => v <=? n
  | NaN => false
  end.

(** ** The edit-distance matrix

    [matrix] is an array of arrays of numbers.  A cell that was never
    written reads [undefined], which the addition and the comparison made
    of it here treat as they treat [NaN]; it is kept as [NaN]. *)
Definition row := list number.
Definition matrix := list row.

(** [r[j] = v] on a JavaScript array: in range it overwrites, past the end
    it extends the array, leaving holes in between. *)
Definition row_set (r : row) (j : nat) (v : number) : row :=
  if j <? List.length r
  then firstn j r ++ v :: skipn (S j) r
  else r ++ repeat NaN (j - List.length r) ++ [v].

(** [r[j]]. *)
Definition row_get (r : row) (j : nat) : number := nth j r NaN.

(** [matrix[i][j] = v]; when [matrix[i]] is [undefined] the assignment
    throws a [TypeError]. *)
Definition mset (m : matrix) (i j : nat) (v : number) : completion matrix :=
  match nth_error m i with
  | Some r => Returns (firstn i m ++ row_set r j v :: skipn (S i) m)
  | None => Throws
  end.

(** [matrix[i][j]]; when [matrix[i]] is [undefined] the read throws a
    [TypeError]. *)
Definition mget (m : matrix) (i j : nat) : completion number :=
  match nth_error m i with
  | Some r => Returns (row_get r j)
  | None => Throws
  end.

Section Levenshtein.

(** The elements are the code units of a JavaScript string, and [eqb] is
    [===] on two of them. *)
Variable A : Type.
Variable eqb : A -> A -> bool.

(** [a[i] === b[j]], where an index past the end reads [undefined]. *)
Definition unit_eqb (x y : option A) : bool :=
  match x, y with
  | Some u, Some v => eqb u v
  | None, None => true
  | _, _ => false
  end.

(** The body of the inner loop of [levenshtein]. *)
Definition cell_step (a b : list A) (i j : nat) (m : matrix) : completion matrix :=
  let cost := if unit_eqb (nth_error a (i - 1)) (nth_error b (j - 1)) then 0 else 1 in
  up <- mget m (i - 1) j ;;
  left <- mget m i (j - 1) ;;
  diag <- mget m (i - 1) (j - 1) ;;
  mset m i j (Math_min (plus up 1) (plus left 1) (plus diag cost)).

(** [levenshtein(a, b)] of [src/worker.js]. *)
Definition levenshtein (a b : list A) : completion number :=
  let matrix0 : matrix := repeat [] (List.length a + 1) in
  m1 <- for_loop 0 (List.length a + 1) (fun i m => mset m i 0 (Num i)) matrix0 ;;
  m2 <- for_loop 0 (List.length b + 1) (fun j m => mset m 0 j (Num j)) m1 ;;
  m3 <- for_loop 1 (List.length a)
          (fun i m => for_loop 1 (List.length b) (cell_step a b i) m) m2 ;;
  mget m3 (List.length a) (List.length b).

(** *** Edit distance, as the glossary defines it *)

(** One single-character insertion, deletion or substitution, anywhere in
    the string. *)
Inductive edit1 : list A -> list A -> Prop :=
  | edit_insert : forall p x s, edit1 (p ++ s) (p ++ x :: s)
  | edit_delete : forall p x s, edit1 (p ++ x :: s) (p ++ s)
  | edit_subst : forall p x y s, edit1 (p ++ x :: s) (p ++ y :: s).

(** [transforms n a b]: [n] edits, one after the other, turn [a] into [b]. *)
Inductive transforms : nat -> list A -> list A -> Prop :=
  | transforms_done : forall l, transforms 0 l l
  | transforms_step : forall n l1 l2 l3,
      edit1 l1 l2 -> transforms n l2 l3 -> transforms (S n) l1 l3.

(** The recurrence of the dynamic programme, on the strings themselves. *)
Definition subst_cost (x y : A) : nat := if eqb x y then 0 else 1.

Fixpoint lev (a b : list A) : nat :=
  match a with
  | [] => List.length b
  | x :: a' =>
      (fix lev_row (b : list A) : nat :=
         match b with
         | [] => List.length a
         | y :: b' =>
             Nat.min (lev a' b + 1)
               (Nat.min (lev_row b' + 1) (lev a' b' + subst_cost x y))
         end) b
  end.

(** What the cell [matrix[i][j]] is to hold: the distance between the
    first [i] code units of [a] and the first [j] of [b]. *)
Definition prefix_distance (a b : list A) (i j : nat) : nat :=
  lev (rev (firstn i a)) (rev (firstn j b)).

(** The state of the matrix when the loops stand at row [i], column [j]:
    column 0, the rows above [i] and the cells of row [i] left of [j] hold
    their distances. *)
Definition filled (a b : list A) (i j : nat) (m : matrix) : Prop :=
  List.length m = List.length a + 1 /\
  forall i' j', i' <= List.length a -> j' <= List.length b ->
    j' = 0 \/ i' < i \/ (i' = i /\ j' < j) ->
    mget m i' j' = Returns (Num (prefix_distance a b i' j')).

End Levenshtein.

(** ** Strings

    A JavaScript string is a sequence of UTF-16 code units; the characters
    of a [string] stand for them. *)
Definition code_units (s : string) : list ascii := list_ascii_of_string s.

(** [s.substring(n)]. *)
Fixpoint substring_from (n : nat) (s : string) : string :=
  match n, s with
  | 0, _ => s
  | S n', String _ s' => substring_from n' s'
  | S _, EmptyString => EmptyString
  end.

(** [s.includes(c)] for a one-character [c]. *)
Definition includes (s : string) (c : ascii) : bool :=
  existsb (Ascii.eqb c) (code_units s).

(** ** The mapping object

    [URL_MAPPINGS] is an object literal whose own properties are the
    short codes.  It is kept as the list of its own properties in the
    order [Object.keys] and [Object.entries] enumerate them. *)
Definition mapping := list (string * string).

Definition Object_keys (o : mapping) : list string := map fst o.
Definition Object_entries (o : mapping) : list (string * string) := o.

(** An object has one property per key. *)
Definition well_formed (o : mapping) : Prop := NoDup (Object_keys o).

(** What a property read can yield. *)
Inductive value : Type :=
  | VUndefined
  | VString (s : string)
  | VInherited (name : string).

(** The members every object literal inherits from [Object.prototype]:
    functions, and for [__proto__] the prototype object itself. *)
Definition Object_prototype_names : list string :=
  [ "constructor"; "__defineGetter__"; "__defineSetter__"; "hasOwnProperty";
    "__lookupGetter__"; "__lookupSetter__"; "isPrototypeOf";
    "propertyIsEnumerable"; "toString"; "valueOf"; "__proto__";
    "toLocaleString" ]%string.

Fixpoint own_property (o : mapping) (k : string) : option string :=
  match o with
  | [] => None
  | (k', v) :: o' => if String.eqb k' k then Some v else own_property o' k
  end.

(** [o[k]]: an own property first, then the prototype. *)
Definition get (o : mapping) (k : string) : value :=
  match own_property o k with
  | Some v => VString v
  | None =>
      if existsb (String.eqb k) Object_prototype_names
      then VInherited k
      else VUndefined
  end.

(** Truthiness, as [if (targetUrl)] tests it. *)
Definition truthy (v : value) : bool :=
  match v with
  | VUndefined => false
  | VString s => negb (String.eqb s "")
  | VInherited _ => true
  end.

(** ** Responses *)

#[warnings="-register-all"]
Inductive json : Type :=
  | JString (s : string)
  | JNumber (n : nat)
  | JObject (fields : list (string * json)).

(** The bodies the worker builds.  The two HTML templates are kept as the
    values interpolated into them; [BodyJson j n] is
    [JSON.stringify(j, null, n)]. *)
Inductive body : Type :=
  | BodyNull
  | BodyText (s : string)
  | BodyJson (j : json) (space : nat)
  | BodyHomePage (origin : string) (urlCount : nat)
      (urlList : list (string * string)) (lastBuilt : string)
  | BodyNotFoundPage (shortCode availableUrls origin : string).

Record Response : Type := mkResponse {
  status : nat;
  headers : list (string * string);
  content : body
}.

(** Header names are compared without regard to case. *)
Definition lower_ascii (c : ascii) : ascii :=
  let n := nat_of_ascii c in
  if (65 <=? n) && (n <=? 90) then ascii_of_nat (n + 32) else c.

Fixpoint lower (s : string) : string :=
  match s with
  | EmptyString => EmptyString
  | String c s' => String (lower_ascii c) (lower s')
  end.

Definition has_header (name : string) (hs : list (string * string)) : bool :=
  existsb (fun h => String.eqb (lower (fst h)) (lower name)) hs.

(** [new Response(body, { status, headers })]; the status defaults to 200.
    Every body the worker passes is a string, and a response made of a
    string with no [Content-Type] among its headers is given
    [text/plain;charset=UTF-8]. *)
Definition new_Response (b : body) (st : option nat)
    (hs : list (string * string)) : Response :=
  mkResponse (match st with Some n => n | None => 200 end)
    (match b with
     | BodyNull => hs
     | _ =>
         if has_header "content-type" hs then hs
         else hs ++ [("content-type", "text/plain;charset=UTF-8")]%string
     end)
    b.

(** [Response.redirect(url, status)].  The text is parsed as an absolute
    URL; [href] is the platform's parser, giving the serialisation of the
    parsed URL, [None] when the text does not parse.  A text that does
    not parse makes the call throw a [TypeError]; one that does gives a
    response whose [Location] is the serialised URL.  An inherited member
    converts to text that is no absolute URL: the call throws. *)
Definition Response_redirect (href : string -> option string) (url : value)
    (st : nat) : completion Response :=
  match url with
  | VString u =>
      match href u with
      | Some serialised =>
          Returns (mkResponse st [("Location", serialised)]%string BodyNull)
      | None => Throws
      end
  | _ => Throws
  end.

(** ** The request and its environment *)

Record Request : Type := mkRequest {
  origin : string;      (* [new URL(request.url).origin] *)
  pathname : string     (* [new URL(request.url).pathname] *)
}.

Record DataPoint : Type := mkDataPoint {
  blobs : list value;
  doubles : list nat
}.

(** [env]: the analytics binding, whose call returns or throws. *)
Record Env : Type := mkEnv {
  writeDataPoint : DataPoint -> completion unit
}.

(** What the handler does besides answering. *)
Inductive event : Type :=
  | ConsoleLog (args : list value)
  | AnalyticsWrite (p : DataPoint).

Record outcome : Type := mkOutcome {
  effects : list event;
  result : completion Response
}.

(** ** The suggestion engine and the handler *)

(** The callback of the filter: [key => levenshtein(key, shortCode) <= 2]. *)
Definition within_two (shortCode key : string) : completion bool :=
  d <- levenshtein Ascii.eqb (code_units key) (code_units shortCode) ;;
  Returns (at_most d 2).

(** [candidates.filter(key => levenshtein(key, query) <= 2).slice(0, 5)]. *)
Definition suggest (query : string) (candidates : list string) :
    completion (list string) :=
  kept <- Array_filter (within_two query) candidates ;;
  Returns (firstn 5 kept).

(** What the suggestions are to be: the keys that at most two edits
    separate from the query, in the order of the candidates. *)
Definition near (query : string) (candidates : list string) : list string :=
  filter (fun c => lev Ascii.eqb (code_units c) (code_units query) <=? 2) candidates.

(** The other copy of the worker in the repository has no distance
    filter: its 404 page lists [Object.keys(URL_MAPPINGS).slice(0, 5)]. *)
Definition first_five_keys (o : mapping) : list string :=
  firstn 5 (Object_keys o).

Definition reserved (path : string) : bool :=
  String.eqb path "/" || String.eqb path "/api/urls" || String.eqb path "/health".

(** [fetch(request, env, ctx)] of [src/worker.js]; [now] is what
    [new Date().toISOString()] reads and [href] the platform's URL
    parser. *)
Definition fetch (href : string -> option string) (URL_MAPPINGS : mapping)
    (now : string) (request : Request) (env : Env) : outcome :=
  let path := pathname request in
  if String.eqb path "/" then
    let urlCount := List.length (Object_keys URL_MAPPINGS) in
    let urlList := Object_entries URL_MAPPINGS in
    mkOutcome []
      (Returns (new_Response (BodyHomePage (origin request) urlCount urlList now)
         None
         [("Content-Type", "text/html");
          ("Cache-Control", "public, max-age=3600")]%string))
  else if String.eqb path "/api/urls" then
    mkOutcome []
      (Returns (new_Response
         (BodyJson
            (JObject
               [("urls", JObject (map (fun kv => (fst kv, JString (snd kv)))
                                    (Object_entries URL_MAPPINGS)));
                ("count", JNumber (List.length (Object_keys URL_MAPPINGS)));
                ("buildTime", JString now)]%string) 2)
         None
         [("Content-Type", "application/json");
          ("Access-Control-Allow-Origin", "*");
          ("Cache-Control", "public, max-age=3600")]%string))
  else if String.eqb path "/health" then
    mkOutcome []
      (Returns (new_Response
         (BodyJson
            (JObject
               [("status", JString "ok");
                ("urlCount", JNumber (List.length (Object_keys URL_MAPPINGS)));
                ("buildTime", JString now)]%string) 0)
         None
         [("Content-Type", "application/json")]%string))
  else
    let shortCode := substring_from 1 path in
    if String.eqb shortCode "" then
      mkOutcome [] (Returns (new_Response (BodyText "Not Found") (Some 404) []))
    else
      let targetUrl := get URL_MAPPINGS shortCode in
      if truthy targetUrl then
        let log := ConsoleLog [VString "Redirecting "; VString shortCode;
                               VString " to "; targetUrl] in
        let point := mkDataPoint [targetUrl] [1] in
        match writeDataPoint env point with
        | Returns _ =>
            mkOutcome [log; AnalyticsWrite point]
              (Response_redirect href targetUrl 301)
        | Throws => mkOutcome [log; AnalyticsWrite point] Throws
        end
      else
        match suggest shortCode (Object_keys URL_MAPPINGS) with
        | Throws => mkOutcome [] Throws
        | Returns similar =>
            let availableUrls := String.concat ", " similar in
            let shown :=
              if String.eqb availableUrls "" then "No similar keys found"%string
              else availableUrls in
            mkOutcome [ConsoleLog [VString "Similar Keys:"; VString shown]]
              (Returns (new_Response
                 (BodyNotFoundPage shortCode availableUrls (origin request))
                 (Some 404)
                 [("Content-Type", "text/html");
                  ("Cache-Control", "public, max-age=300")]%string))
        end.

(** The router of the specification is [fetch] read as a function of the
    path. *)
Definition handle (href : string -> option string) (URL_MAPPINGS : mapping)
    (now : string) (env : Env) (site path : string) : outcome :=
  fetch href URL_MAPPINGS now (mkRequest site path) env.

(** *** What a response shows of the routing decision *)

Definition redirect_target (r : Response) : option string :=
  match status r, headers r with
  | 301, [(name, u)] => if String.eqb name "Location" then Some u else None
  | _, _ => None
  end.

Definition suggestion_list (r : Response) : option string :=
  match content r with
  | BodyNotFoundPage _ s _ => Some s
  | _ => None
  end.

Definition status_of (o : outcome) : option nat :=
  match result o with
  | Returns r => Some (status r)
  | Throws => None
  end.

Definition target_of (o : outcome) : option string :=
  match result o with
  | Returns r => redirect_target r
  | Throws => None
  end.

Definition suggestions_of (o : outcome) : option string :=
  match result o with
  | Returns r => suggestion_list r
  | Throws => None
  end.

(** [headers.get(name)]. *)
Definition header (name : string) (r : Response) : option string :=
  option_map snd
    (find (fun h => String.eqb (lower (fst h)) (lower name)) (headers r)).




(** [k in Object.keys(o)]. *)
Definition has_key (o : mapping) (k : string) : bool :=
  existsb (String.eqb k) (Object_keys o).

(** A name that reads a member of [Object.prototype] and no short code. *)
Definition inherited_only (o : mapping) (k : string) : bool :=
  negb (has_key o k) && existsb (String.eqb k) Object_prototype_names.

(** The build script lets through only destinations that [new URL]
    parses; the empty string is none. *)
Definition destinations_parse (href : string -> option string) (o : mapping) : Prop :=
  Forall (fun kv => snd kv <> ""%string /\ href (snd kv) <> None) o.

(** The build script's test of a key:
    [key.includes('/') || key.includes(' ') || key.includes('?')] is an
    error. *)
Definition build_accepts_key (key : string) : bool :=
  negb (includes key "/" || includes key " " || includes key "?").

Open Scope string_scope.
Open Scope nat_scope.
Open Scope list_scope.

(** Two analytics bindings: one whose call returns, one whose call throws. *)
Definition sink_ok : Env := mkEnv (fun _ => Returns tt).
Definition sink_down : Env := mkEnv (fun _ => Throws).

(** A small [urls.json] that the build script accepts. *)
Definition demo : mapping :=
  [("gh", "https://github.com/"); ("docs", "https://example.com/docs");
   ("health", "https://example.com/status")].

(** ** The other copy of the worker ([src/unnamed/part_000])

    The same handler at an earlier stage: no analytics call on a hit, and
    on a miss the first five keys of the mapping, with an ellipsis when the
    mapping has more.  Its two HTML templates differ from those of
    [src/worker.js], so its bodies are a type of their own. *)
Module Part000.

Inductive body : Type :=
  | BodyNull
  | BodyText (s : string)
  | BodyJson (j : json) (space : nat)
  | BodyHomePage (origin : string) (urlCount : nat)
      (urlList : list (string * string)) (lastBuilt : string)
  | BodyNotFoundPage (shortCode availableUrls ellipsis origin : string).

Record Response : Type := mkResponse {
  status : nat;
  headers : list (string * string);
  content : body
}.

Definition new_Response (b : body) (st : option nat)
    (hs : list (string * string)) : Response :=
  mkResponse (match st with Some n => n | None => 200 end)
    (match b with
     | BodyNull => hs
     | _ =>
         if has_header "content-type" hs then hs
         else hs ++ [("content-type", "text/plain;charset=UTF-8")]
     end)
    b.

Definition Response_redirect (href : string -> option string) (url : value)
    (st : nat) : completion Response :=
  match url with
  | VString u =>
      match href u with
      | Some serialised => Returns (mkResponse st [("Location", serialised)] BodyNull)
      | None => Throws
      end
  | _ => Throws
  end.

Record outcome : Type := mkOutcome {
  effects : list event;
  result : completion Response
}.

(** [fetch(request, env, ctx)] of the other copy; it never reads [env]. *)
Definition fetch (href : string -> option string) (URL_MAPPINGS : mapping)
    (now : string) (request : Request) (env : Env) : outcome :=
  let path := pathname request in
  if String.eqb path "/" then
    let urlCount := List.length (Object_keys URL_MAPPINGS) in
    let urlList := Object_entries URL_MAPPINGS in
    mkOutcome []
      (Returns (new_Response (BodyHomePage (origin request) urlCount urlList now)
         None
         [("Content-Type", "text/html");
          ("Cache-Control", "public, max-age=3600")]))
  else if String.eqb path "/api/urls" then
    mkOutcome []
      (Returns (new_Response
         (BodyJson
            (JObject
               [("urls", JObject (map (fun kv => (fst kv, JString (snd kv)))
                                    (Object_entries URL_MAPPINGS)));
                ("count", JNumber (List.length (Object_keys URL_MAPPINGS)));
                ("buildTime", JString now)]) 2)
         None
         [("Content-Type", "application/json");
          ("Access-Control-Allow-Origin", "*");
          ("Cache-Control", "public, max-age=3600")]))
  else if String.eqb path "/health" then
    mkOutcome []
      (Returns (new_Response
         (BodyJson
            (JObject
               [("status", JString "ok");
                ("urlCount", JNumber (List.length (Object_keys URL_MAPPINGS)));
                ("buildTime", JString now)]) 0)
         None
         [("Content-Type", "application/json")]))
  else
    let shortCode := substring_from 1 path in
    if String.eqb shortCode "" then
      mkOutcome [] (Returns (new_Response (BodyText "Not Found") (Some 404) []))
    else
      let targetUrl := get URL_MAPPINGS shortCode in
      if truthy targetUrl then
        mkOutcome
          [ConsoleLog [VString "Redirecting "; VString shortCode;
                       VString " to "; targetUrl]]
          (Response_redirect href targetUrl 301)
      else
        let availableUrls :=
          String.concat ", " (firstn 5 (Object_keys URL_MAPPINGS)) in
        let ellipsis :=
          if 5 <? List.length (Object_keys URL_MAPPINGS) then "..." else "" in
        mkOutcome []
          (Returns (new_Response
             (BodyNotFoundPage shortCode availableUrls ellipsis (origin request))
             (Some 404)
             [("Content-Type", "text/html");
              ("Cache-Control", "public, max-age=300")])).

(** The status line and the headers of the answer, if there is one. *)
Definition head_of (o : outcome) : option (nat * list (string * string)) :=
  match result o with
  | Returns r => Some (status r, headers r)
  | Throws => None
  end.

End Part000.

(** The status line and the headers of the answer of [src/worker.js]. *)
Definition head_of (o : outcome) : option (nat * list (string * string)) :=
  match result o with
  | Returns r => Some (status r, headers r)
  | Throws => None
  end.

(** [l] is the beginning of [l']. *)
Definition is_prefix (T : Type) (l l' : list T) : Prop :=
  exists rest, l' = l ++ rest.

(** ** The build script

    The second file of the repository: [main] reads [urls.json], checks
    it, and writes the worker with the mapping in place of the
    placeholder. *)

Definition URLS_FILE : string := "urls.json".
Definition WORKER_SOURCE : string := "src/worker.js".
Definition WORKER_OUTPUT : string := "dist/worker.js".
Definition PLACEHOLDER : string := "__URL_MAPPINGS__".

(** *** Strings, again *)

(** [s.startsWith(pat)]. *)
Fixpoint starts_with (pat s : string) : bool :=
  match pat, s with
  | EmptyString, _ => true
  | String _ _, EmptyString => false
  | String a pat', String b s' => Ascii.eqb a b && starts_with pat' s'
  end.

(** [s.indexOf(pat)], [None] for -1. *)
Fixpoint indexOf (pat s : string) : option nat :=
  if starts_with pat s then Some 0
  else
    match s with
    | EmptyString => None
    | String _ s' => option_map S (indexOf pat s')
    end.

(** [s.includes(pat)] for a string [pat]. *)
Definition includes_string (s pat : string) : bool :=
  match indexOf pat s with
  | Some _ => true
  | None => false
  end.

(** [s.substring(0, n)]. *)
Fixpoint substring_to (n : nat) (s : string) : string :=
  match n, s with
  | S n', String c s' => String c (substring_to n' s')
  | _, _ => EmptyString
  end.

(** The replacement text of [replace] with a string pattern, which has no
    capture: [$$] is a dollar sign, [$&] the match, [$`] what precedes
    it, [$'] what follows it, and any other character stands for itself. *)
Fixpoint GetSubstitution (matched before after replacement : string) : string :=
  match replacement with
  | EmptyString => EmptyString
  | String c rest =>
      if Ascii.eqb c "$" then
        match rest with
        | String d rest' =>
            if Ascii.eqb d "$" then
              String "$" (GetSubstitution matched before after rest')
            else if Ascii.eqb d "&" then
              (matched ++ GetSubstitution matched before after rest')%string
            else if Ascii.eqb d "`" then
              (before ++ GetSubstitution matched before after rest')%string
            else if Ascii.eqb d "'" then
              (after ++ GetSubstitution matched before after rest')%string
            else String c (GetSubstitution matched before after rest)
        | EmptyString => String c EmptyString
        end
      else String c (GetSubstitution matched before after rest)
  end.

(** [s.replace(pat, replacement)] for a string [pat]: the first occurrence
    only. *)
Definition String_replace (s pat replacement : string) : string :=
  match indexOf pat s with
  | None => s
  | Some pos =>
      let before := substring_to pos s in
      let after := substring_from (pos + String.length pat) s in
      (before ++ GetSubstitution pat before after replacement ++ after)%string
  end.

(** [path.dirname(p)] for a relative path that does not end in a slash:
    what precedes the last slash, or ["."]. *)
Fixpoint last_slash (s : string) : option nat :=
  match s with
  | EmptyString => None
  | String c s' =>
      match last_slash s' with
      | Some n => Some (S n)
      | None => if Ascii.eqb c "/" then Some 0 else None
      end
  end.

Definition path_dirname (p : string) : string :=
  match last_slash p with
  | Some n => substring_to n p
  | None => "."
  end.

(** *** The file system

    Paths are bound to files or directories, the first binding of a path
    counting.  Only what the script's calls depend on is kept: whether a
    path exists, whether it is a directory, and what a file holds. *)
Inductive node : Type :=
  | File (text : string)
  | Directory.

Definition filesystem := list (string * node).

Fixpoint lookup (fs : filesystem) (p : string) : option node :=
  match fs with
  | [] => None
  | (q, n) :: fs' => if String.eqb q p then Some n else lookup fs' p
  end.

(** *** Scripts: state, exit and exceptions *)

Section BuildScript.

(** The platform: the numbers of JSON, [JSON.parse], [JSON.stringify],
    whether [new URL(value)] returns for a value, and the clock. *)
Variable double : Type.
Variable double_of_nat : nat -> double.

#[warnings="-register-all"]
Inductive jvalue : Type :=
  | JVNull
  | JVBool (b : bool)
  | JVNumber (d : double)
  | JVString (s : string)
  | JVArray (items : list jvalue)
  | JVObject (members : list (string * jvalue)).

Variable JSON_parse : string -> completion jvalue.
Variable JSON_stringify : jvalue -> nat -> string.
Variable URL_parses : jvalue -> bool.
Variable now : string.

(** What the script prints, by [console.log] and [console.error]. *)
Inductive message : Type :=
  | LogBuilding
  | LogCreatedDirectory (dir : string)
  | LogReadingUrls (file : string)
  | ErrUrlsNotFound (file : string)
  | LogCreateHint
  | ErrParsing (file : string)
  | ErrNotAnObject (file : string)
  | LogFound (urlCount : nat)
  | ErrInvalidMapping
  | ErrInvalidKey (key : string)
  | ErrInvalidUrl (value : jvalue) (key : string)
  | ErrFixErrors
  | LogReadingWorker (file : string)
  | ErrWorkerNotFound (file : string)
  | ErrNoPlaceholder (placeholder file : string)
  | LogWriting (file : string)
  | LogCompleted
  | LogBuildInfo
  | LogUrlsLoaded (urlCount : nat)
  | LogOutput (file : string)
  | LogBuildTime (time : string)
  | LogSampleHeader
  | LogSample (key : string) (value : jvalue)
  | LogMore (n : nat)
  | ErrBuildFailed.

Definition world := (filesystem * list message)%type.

(** A statement goes on, ends the process with a code, or throws. *)
Inductive step (T : Type) : Type :=
  | Next (t : T)
  | Exit (code : nat)
  | Raise.
Arguments Exit {T}.
Arguments Raise {T}.

Definition script (T : Type) := world -> world * step T.

Definition ret {T : Type} (t : T) : script T := fun w => (w, Next t).

Definition script_bind {S T : Type} (e : script S) (k : S -> script T) : script T :=
  fun w =>
    match e w with
    | (w', Next s) => k s w'
    | (w', Exit c) => (w', Exit c)
    | (w', Raise) => (w', Raise)
    end.

Notation "x <~ e ;; k" := (script_bind e (fun x => k))
  (at level 61, e at next level, right associativity).
Notation "e ;;; k" := (script_bind e (fun _ => k))
  (at level 61, right associativity).

(** [try { body } catch { handler }]. *)
Definition try_catch {T : Type} (body handler : script T) : script T :=
  fun w =>
    match body w with
    | (w', Raise) => handler w'
    | r => r
    end.

Definition console_log (m : message) : script unit :=
  fun w => ((fst w, snd w ++ [m]), Next tt).

Definition process_exit {T : Type} (code : nat) : script T :=
  fun w => (w, Exit code).

Definition existsSync (p : string) : script bool :=
  fun w => (w, Next (match lookup (fst w) p with Some _ => true | None => false end)).

(** [fs.readFileSync(p, 'utf8')]: throws on a directory and on a path that
    does not exist. *)
Definition readFileSync (p : string) : script string :=
  fun w =>
    match lookup (fst w) p with
    | Some (File text) => (w, Next text)
    | _ => (w, Raise)
    end.

(** [fs.mkdirSync(p, { recursive: true })] under the working directory:
    throws when [p] is a file. *)
Definition mkdirSync (p : string) : script unit :=
  fun w =>
    match lookup (fst w) p with
    | Some (File _) => (w, Raise)
    | Some Directory => (w, Next tt)
    | None => (((p, Directory) :: fst w, snd w), Next tt)
    end.

(** [fs.writeFileSync(p, text)]: throws when the directory of [p] is not
    one, and when [p] is a directory. *)
Definition writeFileSync (p text : string) : script unit :=
  fun w =>
    match lookup (fst w) (path_dirname p), lookup (fst w) p with
    | Some Directory, Some Directory => (w, Raise)
    | Some Directory, _ => (((p, File text) :: fst w, snd w), Next tt)
    | _, _ => (w, Raise)
    end.

(** [for (const x of l) body], with the variable the body updates. *)
Fixpoint for_of {T St : Type} (l : list T) (body : T -> St -> script St) (s : St) :
    script St :=
  match l with
  | [] => ret s
  | x :: l' => s' <~ body x s ;; for_of l' body s'
  end.

Definition is_string (v : jvalue) : bool :=
  match v with
  | JVString _ => true
  | _ => false
  end.

(** The body of the validation loop, on [hasErrors].  The key of an entry
    is a string, so the first test is that of the value. *)
Definition check_entry (entry : string * jvalue) (hasErrors : bool) : script bool :=
  let key := fst entry in
  let value := snd entry in
  hasErrors <~ (if negb (is_string value)
                then console_log ErrInvalidMapping ;;; ret true
                else ret hasErrors) ;;
  hasErrors <~ (if includes key "/" || includes key " " || includes key "?"
                then console_log (ErrInvalidKey key) ;;; ret true
                else ret hasErrors) ;;
  if URL_parses value then ret hasErrors
  else console_log (ErrInvalidUrl value key) ;;; ret true.

(** [main()] of the build script. *)
Definition main : script unit :=
  try_catch
    (console_log LogBuilding ;;;
     let distDir := path_dirname WORKER_OUTPUT in
     dist <~ existsSync distDir ;;
     (if negb dist
      then mkdirSync distDir ;;; console_log (LogCreatedDirectory distDir)
      else ret tt) ;;;
     console_log (LogReadingUrls URLS_FILE) ;;;
     found <~ existsSync URLS_FILE ;;
     (if negb found
      then console_log (ErrUrlsNotFound URLS_FILE) ;;;
           console_log LogCreateHint ;;; process_exit 1
      else ret tt) ;;;
     urlsContent <~ readFileSync URLS_FILE ;;
     urls <~ match JSON_parse urlsContent with
             | Returns v => ret v
             | Throws => console_log (ErrParsing URLS_FILE) ;;; process_exit 1
             end ;;
     entries <~ match urls with
                | JVObject members => ret members
                | _ => console_log (ErrNotAnObject URLS_FILE) ;;; process_exit 1
                end ;;
     let urlCount := List.length entries in
     console_log (LogFound urlCount) ;;;
     hasErrors <~ for_of entries check_entry false ;;
     (if hasErrors then console_log ErrFixErrors ;;; process_exit 1 else ret tt) ;;;
     console_log (LogReadingWorker WORKER_SOURCE) ;;;
     found <~ existsSync WORKER_SOURCE ;;
     (if negb found
      then console_log (ErrWorkerNotFound WORKER_SOURCE) ;;; process_exit 1
      else ret tt) ;;;
     workerSource <~ readFileSync WORKER_SOURCE ;;
     (if negb (includes_string workerSource PLACEHOLDER)
      then console_log (ErrNoPlaceholder PLACEHOLDER WORKER_SOURCE) ;;; process_exit 1
      else ret tt) ;;;
     let urlsJson := JSON_stringify urls 2 in
     let builtWorker := String_replace workerSource PLACEHOLDER urlsJson in
     console_log (LogWriting WORKER_OUTPUT) ;;;
     writeFileSync WORKER_OUTPUT builtWorker ;;;
     let buildInfo :=
       JVObject
         [("buildTime", JVString now);
          ("urlCount", JVNumber (double_of_nat urlCount));
          ("sourceFiles",
           JVObject [("urls", JVString URLS_FILE); ("worker", JVString WORKER_SOURCE)]);
          ("outputFile", JVString WORKER_OUTPUT)] in
     writeFileSync "dist/build-info.json" (JSON_stringify buildInfo 2) ;;;
     console_log LogCompleted ;;;
     console_log LogBuildInfo ;;;
     console_log (LogUrlsLoaded urlCount) ;;;
     console_log (LogOutput WORKER_OUTPUT) ;;;
     console_log (LogBuildTime now) ;;;
     let urlPairs := firstn 3 entries in
     if 0 <? List.length urlPairs then
       console_log LogSampleHeader ;;;
       for_of urlPairs (fun pair _ => console_log (LogSample (fst pair) (snd pair))) tt ;;;
       (if 3 <? urlCount then console_log (LogMore (urlCount - 3)) else ret tt)
     else ret tt)
    (console_log ErrBuildFailed ;;; process_exit 1).


(** What the loop prints for an entry: one line for each test that
    fails. *)
Definition entry_errors (entry : string * jvalue) : list message :=
  (if negb (is_string (snd entry)) then [ErrInvalidMapping] else []) ++
  (if includes (fst entry) "/" || includes (fst entry) " " || includes (fst entry) "?"
   then [ErrInvalidKey (fst entry)] else []) ++
  (if URL_parses (snd entry) then [] else [ErrInvalidUrl (snd entry) (fst entry)]).

(** An entry that passes the three tests of the loop. *)
Definition entry_ok (entry : string * jvalue) : bool :=
  is_string (snd entry) && build_accepts_key (fst entry) && URL_parses (snd entry).

End BuildScript.

Arguments JVNull {double}.
Arguments JVBool {double} b.
Arguments JVString {double} s.
Arguments Exit {T}.
Arguments Raise {T}.
Arguments LogBuilding {double}.
Arguments LogCreatedDirectory {double} dir.
Arguments LogReadingUrls {double} file.
Arguments ErrUrlsNotFound {double} file.
Arguments LogCreateHint {double}.
Arguments ErrParsing {double} file.
Arguments ErrNotAnObject {double} file.
Arguments LogFound {double} urlCount.
Arguments ErrInvalidMapping {double}.
Arguments ErrInvalidKey {double} key.
Arguments ErrFixErrors {double}.
Arguments LogReadingWorker {double} file.
Arguments ErrWorkerNotFound {double} file.
Arguments ErrNoPlaceholder {double} placeholder file.
Arguments LogWriting {double} file.
Arguments LogCompleted {double}.
Arguments LogBuildInfo {double}.
Arguments LogUrlsLoaded {double} urlCount.
Arguments LogOutput {double} file.
Arguments LogBuildTime {double} time.
Arguments LogSampleHeader {double}.
Arguments LogMore {double} n.
Arguments ErrBuildFailed {double}.

(** A platform and a working directory to run the script on: numbers
    are naturals, the text of [urls.json] is parsed by a table, and
    [new URL] takes what starts with ["http"]. *)
Definition sample_parse (text : string) : completion (jvalue nat) :=
  if String.eqb text "good" then
    Returns (JVObject [("gh", JVString "https://github.com/");
                       ("docs", JVString "https://example.com/docs")])
  else if String.eqb text "bad" then
    Returns (JVObject [("gh", JVString "https://github.com/");
                       ("my docs", JVString "example.com")])
  else Throws.

Definition sample_stringify (v : jvalue nat) (indent : nat) : string :=
  match v with
  | JVObject (("gh", _) :: _) => "{ gh, docs }"
  | _ => "{ info }"
  end.

Definition sample_url_parses (v : jvalue nat) : bool :=
  match v with
  | JVString s => starts_with "http" s
  | _ => false
  end.

(** A stand-in for the platform's URL parser: it takes what starts with
    ["https://"] and gives it back, with the slash of the root path when
    the text has no path. *)
Definition sample_href (text : string) : option string :=
  if starts_with "https://" text
  then Some (if includes (substring_from 8 text) "/" then text
             else (text ++ "/")%string)
  else None.

Definition sample_disk (urls : string) : filesystem :=
  [(URLS_FILE, File urls);
   (WORKER_SOURCE, File "const URL_MAPPINGS = __URL_MAPPINGS__;")].

(** * Properties *)

(** ** Arrays and loops *)

Lemma skipn_S_tail (T : Type) (j : nat) (l : list T) (y : T) (t : list T) :
  skipn j l = y :: t -> skipn (S j) l = t.
Proof.
  revert l. induction j as [|j IH]; intros [|z l] H; simpl in H; try discriminate.
  - now inversion H.
  - apply IH in H. exact H.
Qed.

Lemma row_get_set_same (r : row) (j : nat) (v : number) :
  row_get (row_set r j v) j = v.
Proof.
  unfold row_get, row_set.
  destruct (j <? List.length r) eqn:E.
  - apply Nat.ltb_lt in E.
    rewrite app_nth2; rewrite firstn_length_le by lia; [|lia].
    now rewrite Nat.sub_diag.
  - apply Nat.ltb_ge in E.
    rewrite app_nth2 by lia.
    rewrite app_nth2; rewrite repeat_length; [|lia].
    now rewrite Nat.sub_diag.
Qed.

Lemma row_get_set_other (r : row) (j j' : nat) (v : number) :
  j' <> j -> row_get (row_set r j v) j' = row_get r j'.
Proof.
  intros Hne. unfold row_get, row_set.
  destruct (j <? List.length r) eqn:E.
  - apply Nat.ltb_lt in E.
    rewrite <- (firstn_skipn j r) at 3.
    destruct (Nat.lt_ge_cases j' j) as [Hlt|Hge].
    + rewrite !app_nth1 by (rewrite firstn_length_le; lia). reflexivity.
    + rewrite !app_nth2 by (rewrite firstn_length_le; lia).
      rewrite firstn_length_le by lia.
      destruct (j' - j) as [|d] eqn:Ed; [lia|].
      destruct (skipn j r) as [|y t] eqn:Es.
      * apply (f_equal (@List.length _)) in Es.
        rewrite length_skipn in Es. simpl in Es. lia.
      * now rewrite (skipn_S_tail _ _ Es).
  - apply Nat.ltb_ge in E.
    destruct (Nat.lt_ge_cases j' (List.length r)) as [Hlt|Hge].
    + now rewrite app_nth1 by lia.
    + rewrite app_nth2 by lia.
      rewrite (nth_overflow r) by lia.
      destruct (Nat.lt_ge_cases (j' - List.length r) (j - List.length r)) as [H1|H1].
      * rewrite app_nth1 by (rewrite repeat_length; lia).
        apply nth_repeat.
      * rewrite app_nth2 by (rewrite repeat_length; lia).
        rewrite repeat_length. apply nth_overflow. simpl. lia.
Qed.

(** A write to a row the matrix has succeeds, reads back, and leaves the
    other cells and the number of rows alone. *)
Lemma mset_spec (m : matrix) (i j : nat) (v : number) :
  i < List.length m ->
  exists m', mset m i j v = Returns m' /\
    List.length m' = List.length m /\
    mget m' i j = Returns v /\
    (forall i' j', (i' <> i \/ j' <> j) -> mget m' i' j' = mget m i' j').
Proof.
  intros Hi. unfold mset.
  destruct (nth_error m i) as [r|] eqn:Er.
  2:{ apply nth_error_None in Er. lia. }
  eexists. split; [reflexivity|].
  assert (Hf : List.length (firstn i m) = i) by (apply firstn_length_le; lia).
  split; [|split].
  - rewrite length_app, Hf.
    change (List.length (row_set r j v :: skipn (S i) m))
      with (S (List.length (skipn (S i) m))).
    rewrite length_skipn. lia.
  - unfold mget. rewrite nth_error_app2 by lia.
    rewrite Hf, Nat.sub_diag. simpl. now rewrite row_get_set_same.
  - intros i' j' Hne. unfold mget.
    destruct (Nat.eq_dec i' i) as [->|Hi'].
    + rewrite nth_error_app2 by lia.
      rewrite Hf, Nat.sub_diag, Er. simpl.
      rewrite row_get_set_other; [reflexivity|]. destruct Hne; congruence.
    + replace (nth_error (firstn i m ++ row_set r j v :: skipn (S i) m) i')
        with (nth_error m i'); [reflexivity|].
      rewrite <- (firstn_skipn i m) at 1.
      destruct (Nat.lt_ge_cases i' i) as [Hlt|Hge].
      * now rewrite !nth_error_app1 by lia.
      * rewrite !nth_error_app2 by lia. rewrite Hf.
        destruct (i' - i) as [|d] eqn:Ed; [lia|].
        destruct (skipn i m) as [|y t] eqn:Es.
        -- apply (f_equal (@List.length _)) in Es.
           rewrite length_skipn in Es. simpl in Es. lia.
        -- now rewrite (skipn_S_tail _ _ Es).
Qed.

(** A loop whose body keeps an invariant runs to its end and keeps it. *)
Lemma for_loop_invariant (St : Type) (P : nat -> St -> Prop)
    (body : nat -> St -> completion St) (count lo : nat) (s : St) :
  P lo s ->
  (forall i t, lo <= i < lo + count -> P i t ->
     exists t', body i t = Returns t' /\ P (S i) t') ->
  exists s', for_loop lo count body s = Returns s' /\ P (lo + count) s'.
Proof.
  revert lo s. induction count as [|c IH]; intros lo s H0 Hstep.
  - exists s. rewrite Nat.add_0_r. now split.
  - destruct (Hstep lo s) as (t' & Hb & Ht'); [lia|assumption|].
    destruct (IH (S lo) t' Ht') as (s' & Hl & Hs').
    + intros i t Hi. apply Hstep. lia.
    + exists s'. simpl. rewrite Hb. split; [assumption|].
      now replace (lo + S c) with (S lo + c) by lia.
Qed.

(** ** The recurrence and the shortest sequence of edits *)

Section EditDistance.

Variable A : Type.
Variable eqb : A -> A -> bool.
Hypothesis eqb_eq : forall x y, eqb x y = true <-> x = y.

Local Abbreviation lev := (lev eqb).
Local Abbreviation subst_cost := (subst_cost eqb).

Lemma lev_nil_l (b : list A) : lev [] b = List.length b.
Proof. reflexivity. Qed.

Lemma lev_nil_r (a : list A) : lev a [] = List.length a.
Proof. destruct a; reflexivity. Qed.

Lemma lev_cons_cons (x y : A) (a b : list A) :
  lev (x :: a) (y :: b) =
  Nat.min (lev a (y :: b) + 1)
    (Nat.min (lev (x :: a) b + 1) (lev a b + subst_cost x y)).
Proof. reflexivity. Qed.

Lemma subst_cost_le (x y : A) : subst_cost x y <= 1.
Proof. unfold subst_cost. destruct (eqb x y); lia. Qed.

Lemma subst_cost_refl (x : A) : subst_cost x x = 0.
Proof.
  unfold subst_cost.
  now rewrite (proj2 (eqb_eq x x) eq_refl).
Qed.

Lemma lev_refl (a : list A) : lev a a = 0.
Proof.
  induction a as [|x a IH]; [reflexivity|].
  rewrite lev_cons_cons, IH, subst_cost_refl. lia.
Qed.

(** Dropping the first character of the source costs at most one edit. *)
Lemma lev_drop_l (x : A) (a b : list A) : lev (x :: a) b <= lev a b + 1.
Proof.
  destruct b as [|y b].
  - rewrite !lev_nil_r. simpl. lia.
  - rewrite lev_cons_cons. lia.
Qed.

(** The three edits at the head of the target. *)
Lemma lev_insert_head (x : A) (a l : list A) : lev a (x :: l) <= lev a l + 1.
Proof.
  destruct a as [|z a].
  - rewrite !lev_nil_l. simpl. lia.
  - rewrite lev_cons_cons. lia.
Qed.

Lemma lev_delete_head (x : A) (a l : list A) : lev a l <= lev a (x :: l) + 1.
Proof.
  induction a as [|z a IH].
  - rewrite !lev_nil_l. simpl. lia.
  - rewrite lev_cons_cons.
    pose proof (lev_drop_l z a l). lia.
Qed.

Lemma lev_subst_head (x y : A) (a l : list A) :
  lev a (y :: l) <= lev a (x :: l) + 1.
Proof.
  induction a as [|z a IH].
  - rewrite !lev_nil_l. simpl. lia.
  - rewrite !lev_cons_cons.
    pose proof (subst_cost_le z x). pose proof (subst_cost_le z y). lia.
Qed.

(** An edit further right is an edit of the tail. *)
Lemma lev_under_cons (x : A) (l l' : list A) :
  (forall a, lev a l' <= lev a l + 1) ->
  forall a, lev a (x :: l') <= lev a (x :: l) + 1.
Proof.
  intros H a. induction a as [|z a IH].
  - rewrite !lev_nil_l. specialize (H []). rewrite !lev_nil_l in H. simpl. lia.
  - rewrite !lev_cons_cons.
    pose proof (H (z :: a)). pose proof (H a). lia.
Qed.

Lemma lev_under_prefix (p l l' : list A) :
  (forall a, lev a l' <= lev a l + 1) ->
  forall a, lev a (p ++ l') <= lev a (p ++ l) + 1.
Proof.
  intros H. induction p as [|x p IH]; [exact H|].
  simpl. now apply lev_under_cons.
Qed.

(** One edit of the target moves the distance by at most one. *)
Lemma lev_edit1 (b c : list A) :
  edit1 b c -> forall a, lev a c <= lev a b + 1.
Proof.
  intros [p x s|p x s|p x y s]; apply lev_under_prefix; intros a.
  - apply lev_insert_head.
  - apply lev_delete_head.
  - apply lev_subst_head.
Qed.

(** No sequence of edits is shorter than the recurrence says. *)
Lemma lev_lower_bound (n : nat) (a b : list A) :
  transforms n a b -> lev a b <= n.
Proof.
  intros H.
  assert (G : forall c, lev c b <= lev c a + n).
  { induction H as [l|n l1 l2 l3 He _ IH]; intros c; [lia|].
    pose proof (lev_edit1 He c). specialize (IH c). lia. }
  specialize (G a). rewrite lev_refl in G. lia.
Qed.

Lemma edit1_cons (x : A) (l l' : list A) : edit1 l l' -> edit1 (x :: l) (x :: l').
Proof.
  intros [p y s|p y s|p y z s].
  - apply (edit_insert (x :: p)).
  - apply (edit_delete (x :: p)).
  - apply (edit_subst (x :: p)).
Qed.

Lemma transforms_cons (x : A) (n : nat) (l l' : list A) :
  transforms n l l' -> transforms n (x :: l) (x :: l').
Proof.
  induction 1 as [l|n l1 l2 l3 He _ IH]; [constructor|].
  eapply transforms_step; [apply edit1_cons, He|exact IH].
Qed.

Lemma transforms_count (n m : nat) (a b : list A) :
  n = m -> transforms n a b -> transforms m a b.
Proof. now intros ->. Qed.

Lemma transforms_from_nil (b : list A) : transforms (List.length b) [] b.
Proof.
  induction b as [|y b IH]; [constructor|].
  simpl. eapply transforms_step.
  - apply (edit_insert [] y []).
  - now apply transforms_cons.
Qed.

Lemma transforms_to_nil (a : list A) : transforms (List.length a) a [].
Proof.
  induction a as [|x a IH]; [constructor|].
  simpl. eapply transforms_step; [apply (edit_delete [] x a)|exact IH].
Qed.

(** The recurrence is reached by a sequence of edits. *)
Lemma lev_reached (a b : list A) : transforms (lev a b) a b.
Proof.
  revert b. induction a as [|x a IHa]; intros b.
  - rewrite lev_nil_l. apply transforms_from_nil.
  - induction b as [|y b IHb].
    + rewrite lev_nil_r. apply transforms_to_nil.
    + rewrite lev_cons_cons.
      destruct (Nat.min_spec (lev a (y :: b) + 1)
                  (Nat.min (lev (x :: a) b + 1) (lev a b + subst_cost x y)))
        as [[_ ->]|[_ ->]].
      * apply transforms_count with (S (lev a (y :: b))); [lia|].
        eapply transforms_step; [apply (edit_delete [] x a)|apply IHa].
      * destruct (Nat.min_spec (lev (x :: a) b + 1) (lev a b + subst_cost x y))
          as [[_ ->]|[_ ->]].
        -- apply transforms_count with (S (lev (x :: a) b)); [lia|].
           eapply transforms_step; [apply (edit_insert [] y (x :: a))|].
           apply transforms_cons, IHb.
        -- unfold subst_cost. destruct (eqb x y) eqn:E.
           ++ apply eqb_eq in E. subst y. rewrite Nat.add_0_r.
              apply transforms_cons, IHa.
           ++ apply transforms_count with (S (lev a b)); [lia|].
              eapply transforms_step; [apply (edit_subst [] x y a)|].
              apply transforms_cons, IHa.
Qed.

(** Reading both strings backwards changes nothing. *)
Lemma edit1_rev (l l' : list A) : edit1 l l' -> edit1 (rev l) (rev l').
Proof.
  intros [p x s|p x s|p x y s]; rewrite !rev_app_distr; simpl;
    rewrite <- ?app_assoc; simpl; constructor.
Qed.

Lemma transforms_rev (n : nat) (a b : list A) :
  transforms n a b -> transforms n (rev a) (rev b).
Proof.
  induction 1 as [l|n l1 l2 l3 He _ IH]; [constructor|].
  eapply transforms_step; [apply edit1_rev, He|exact IH].
Qed.

Lemma lev_rev (a b : list A) : lev (rev a) (rev b) = lev a b.
Proof.
  apply Nat.le_antisymm.
  - apply lev_lower_bound, transforms_rev, lev_reached.
  - apply lev_lower_bound.
    pose proof (transforms_rev (lev_reached (rev a) (rev b))) as H.
    now rewrite !rev_involutive in H.
Qed.

End EditDistance.

(** ** The loops of [levenshtein] fill the matrix with the recurrence *)

Section Matrix.

Variable A : Type.
Variable eqb : A -> A -> bool.
Variables a b : list A.

Local Abbreviation dist := (prefix_distance eqb a b).

Lemma prefix_distance_row0 (j : nat) : j <= List.length b -> dist 0 j = j.
Proof.
  intros Hj. unfold prefix_distance. simpl.
  rewrite length_rev. apply firstn_length_le, Hj.
Qed.

Lemma prefix_distance_col0 (i : nat) : i <= List.length a -> dist i 0 = i.
Proof.
  intros Hi. unfold prefix_distance. simpl.
  rewrite lev_nil_r, length_rev. apply firstn_length_le, Hi.
Qed.

Lemma firstn_snoc (T : Type) (l : list T) (i : nat) (x : T) :
  nth_error l i = Some x -> firstn (S i) l = firstn i l ++ [x].
Proof.
  revert i. induction l as [|y l IH]; intros [|i] H; simpl in H; try discriminate.
  - now inversion H.
  - simpl. f_equal. now apply IH.
Qed.

Lemma nth_error_in_range (T : Type) (l : list T) (i : nat) :
  i < List.length l -> exists x, nth_error l i = Some x.
Proof.
  intros H. destruct (nth_error l i) as [x|] eqn:E; [now exists x|].
  apply nth_error_None in E. lia.
Qed.

(** The recurrence the inner loop computes. *)
Lemma prefix_distance_step (i j : nat) :
  1 <= i <= List.length a -> 1 <= j <= List.length b ->
  dist i j =
  Nat.min (dist (i - 1) j + 1)
    (Nat.min (dist i (j - 1) + 1)
       (dist (i - 1) (j - 1) +
        (if unit_eqb eqb (nth_error a (i - 1)) (nth_error b (j - 1))
         then 0 else 1))).
Proof.
  intros Hi Hj.
  destruct i as [|i]; [lia|]. destruct j as [|j]; [lia|].
  replace (S i - 1) with i by lia. replace (S j - 1) with j by lia.
  destruct (@nth_error_in_range _ a i) as [x Hx]; [lia|].
  destruct (@nth_error_in_range _ b j) as [y Hy]; [lia|].
  unfold prefix_distance.
  rewrite (firstn_snoc _ _ Hx), (firstn_snoc _ _ Hy), Hx, Hy.
  rewrite !rev_app_distr. simpl rev. simpl app.
  rewrite lev_cons_cons. reflexivity.
Qed.

(** The first loop: [matrix[i][0] = i]. *)
Lemma first_column_filled :
  exists m, for_loop 0 (List.length a + 1) (fun i m => mset m i 0 (Num i))
              (repeat [] (List.length a + 1)) = Returns m /\
    List.length m = List.length a + 1 /\
    forall i, i <= List.length a -> mget m i 0 = Returns (Num i).
Proof.
  destruct (@for_loop_invariant matrix
              (fun i m => List.length m = List.length a + 1 /\
                          forall i', i' < i -> mget m i' 0 = Returns (Num i'))
              (fun i m => mset m i 0 (Num i)) (List.length a + 1) 0
              (repeat [] (List.length a + 1)))
    as (m & Hm & Hlen & Hcells).
  - split; [apply repeat_length|]. intros i' Hi'. lia.
  - intros i t Hi [Hlen Hcells].
    destruct (@mset_spec t i 0 (Num i)) as (t' & Hset & Hlen' & Hsame & Hother); [lia|].
    exists t'. split; [exact Hset|]. split; [congruence|].
    intros i' Hi'. destruct (Nat.eq_dec i' i) as [->|Hne]; [exact Hsame|].
    rewrite Hother by (left; exact Hne). apply Hcells. lia.
  - exists m. split; [exact Hm|]. split; [exact Hlen|].
    intros i Hi. apply Hcells. lia.
Qed.

(** The second loop: [matrix[0][j] = j]. *)
Lemma first_row_filled (m1 : matrix) :
  List.length m1 = List.length a + 1 ->
  (forall i, i <= List.length a -> mget m1 i 0 = Returns (Num i)) ->
  exists m, for_loop 0 (List.length b + 1) (fun j m => mset m 0 j (Num j)) m1 = Returns m /\
    filled eqb a b 1 1 m.
Proof.
  intros Hlen1 Hcol.
  destruct (@for_loop_invariant matrix
              (fun j m => List.length m = List.length a + 1 /\
                          (forall i, i <= List.length a -> mget m i 0 = Returns (Num i)) /\
                          forall j', j' < j -> mget m 0 j' = Returns (Num j'))
              (fun j m => mset m 0 j (Num j)) (List.length b + 1) 0 m1)
    as (m & Hm & Hlen & Hc & Hr).
  - split; [exact Hlen1|]. split; [exact Hcol|]. intros j' Hj'. lia.
  - intros j t Hj (Hlen & Hc & Hr).
    destruct (@mset_spec t 0 j (Num j)) as (t' & Hset & Hlen' & Hsame & Hother); [lia|].
    exists t'. split; [exact Hset|]. split; [congruence|]. split.
    + intros i Hi.
      destruct (Nat.eq_dec i 0) as [->|Hne], (Nat.eq_dec j 0) as [->|Hne'].
      * exact Hsame.
      * rewrite Hother by (right; congruence). now apply Hc.
      * rewrite Hother by (left; exact Hne). now apply Hc.
      * rewrite Hother by (left; exact Hne). now apply Hc.
    + intros j' Hj'. destruct (Nat.eq_dec j' j) as [->|Hne]; [exact Hsame|].
      rewrite Hother by (right; exact Hne). apply Hr. lia.
  - exists m. split; [exact Hm|]. split; [exact Hlen|].
    intros i' j' Hi' Hj' [->|[Hlt|[-> Hlt]]].
    + rewrite prefix_distance_col0 by exact Hi'. now apply Hc.
    + replace i' with 0 by lia.
      rewrite prefix_distance_row0 by exact Hj'. apply Hr. lia.
    + replace j' with 0 by lia.
      rewrite prefix_distance_col0 by exact Hi'. now apply Hc.
Qed.

(** One turn of the inner loop. *)
Lemma cell_step_filled (i j : nat) (m : matrix) :
  1 <= i <= List.length a -> 1 <= j <= List.length b ->
  filled eqb a b i j m ->
  exists m', cell_step eqb a b i j m = Returns m' /\ filled eqb a b i (S j) m'.
Proof.
  intros Hi Hj [Hlen Hcells]. unfold cell_step.
  rewrite (Hcells (i - 1) j) by lia.
  rewrite (Hcells i (j - 1)) by lia.
  rewrite (Hcells (i - 1) (j - 1)) by lia.
  cbn [bind plus Math_min].
  rewrite <- (prefix_distance_step Hi Hj).
  destruct (@mset_spec m i j (Num (dist i j))) as (m' & Hset & Hlen' & Hsame & Hother);
    [lia|].
  exists m'. split; [exact Hset|]. split; [congruence|].
  intros i' j' Hi' Hj' Hwhere.
  destruct (Nat.eq_dec i' i) as [->|Hne].
  - destruct (Nat.eq_dec j' j) as [->|Hne']; [exact Hsame|].
    rewrite Hother by (right; exact Hne'). apply Hcells; lia.
  - rewrite Hother by (left; exact Hne). apply Hcells; lia.
Qed.

(** One turn of the outer loop. *)
Lemma row_filled (i : nat) (m : matrix) :
  1 <= i <= List.length a ->
  filled eqb a b i 1 m ->
  exists m', for_loop 1 (List.length b) (cell_step eqb a b i) m = Returns m' /\
    filled eqb a b (S i) 1 m'.
Proof.
  intros Hi Hm.
  destruct (@for_loop_invariant matrix (filled eqb a b i)
              (cell_step eqb a b i) (List.length b) 1 m Hm)
    as (m' & Hloop & Hlen & Hcells).
  - intros j t Hj Ht. apply cell_step_filled; [exact Hi|lia|exact Ht].
  - exists m'. split; [exact Hloop|]. split; [exact Hlen|].
    intros i' j' Hi' Hj' Hwhere. apply Hcells; lia.
Qed.

(** The function returns the recurrence, read on the reversed strings. *)
Lemma levenshtein_prefix_distance :
  levenshtein eqb a b = Returns (Num (lev eqb (rev a) (rev b))).
Proof.
  unfold levenshtein.
  destruct first_column_filled as (m1 & -> & Hlen1 & Hcol). cbn [bind].
  destruct (@first_row_filled m1 Hlen1 Hcol) as (m2 & -> & Hm2). cbn [bind].
  destruct (@for_loop_invariant matrix (fun i m => filled eqb a b i 1 m)
              (fun i m => for_loop 1 (List.length b) (cell_step eqb a b i) m)
              (List.length a) 1 m2 Hm2)
    as (m3 & -> & Hlen3 & Hcells).
  - intros i t Hi Ht. apply row_filled; [lia|exact Ht].
  - cbn [bind]. rewrite Hcells by lia.
    unfold prefix_distance. now rewrite !firstn_all.
Qed.

End Matrix.

(** [levenshtein] computes the recurrence. *)
Lemma levenshtein_lev (A : Type) (eqb : A -> A -> bool)
    (eqb_eq : forall x y, eqb x y = true <-> x = y) (a b : list A) :
  levenshtein eqb a b = Returns (Num (lev eqb a b)).
Proof. now rewrite levenshtein_prefix_distance, lev_rev. Qed.

(** ** The suggestion engine *)

(** C4.  For every pair of strings, over any alphabet of code units that
    [===] compares, [levenshtein] returns a number [d]; [d] single-character
    insertions, deletions and substitutions turn the first string into the
    second, and no sequence of such edits is shorter. *)
Theorem levenshtein_minimal_edits (A : Type) (eqb : A -> A -> bool)
    (eqb_eq : forall x y, eqb x y = true <-> x = y) (a b : list A) :
  exists d, levenshtein eqb a b = Returns (Num d) /\
    transforms d a b /\
    forall n, transforms n a b -> d <= n.
Proof.
  exists (lev eqb a b). split; [|split].
  - now apply levenshtein_lev.
  - now apply lev_reached.
  - intros n. now apply lev_lower_bound.
Qed.

Lemma levenshtein_minimal_edits_witness :
  (forall x y, Ascii.eqb x y = true <-> x = y) /\
  exists d,
    levenshtein Ascii.eqb (code_units "kitten") (code_units "sitting") = Returns (Num d) /\
    transforms d (code_units "kitten") (code_units "sitting") /\
    forall n, transforms n (code_units "kitten") (code_units "sitting") -> d <= n.
Proof.
  split; [exact Ascii.eqb_eq|].
  exact (@levenshtein_minimal_edits ascii Ascii.eqb Ascii.eqb_eq
           (code_units "kitten") (code_units "sitting")).
Defined.

Example levenshtein_kitten :
  levenshtein Ascii.eqb (code_units "kitten") (code_units "sitting") = Returns (Num 3).
Proof. reflexivity. Qed.

Lemma code_units_length (s : string) : List.length (code_units s) = String.length s.
Proof. induction s as [|c s IH]; simpl; [reflexivity|now rewrite IH]. Qed.

(** A callback that always returns makes [filter] the filter of lists. *)
Lemma Array_filter_returns (T : Type) (keep : T -> completion bool)
    (test : T -> bool) (l : list T) :
  (forall x, keep x = Returns (test x)) ->
  Array_filter keep l = Returns (filter test l).
Proof.
  intros H. induction l as [|x l IH]; [reflexivity|].
  simpl. rewrite H, IH. simpl. now destruct (test x).
Qed.

(** On strings the callback of the worker is the test of the recurrence. *)
Lemma within_two_lev (query key : string) :
  within_two query key =
  Returns (lev Ascii.eqb (code_units key) (code_units query) <=? 2).
Proof.
  unfold within_two. now rewrite (@levenshtein_lev ascii Ascii.eqb Ascii.eqb_eq).
Qed.

(** C8.  Against the empty string [levenshtein] returns the length of the
    other string, whichever side the empty string is on; so for the empty
    query the filter keeps exactly the candidates of length at most 2, in
    their order, and [suggest] returns the first five of them. *)
Theorem empty_query_distance_is_length :
  (forall c : string,
     levenshtein Ascii.eqb (code_units c) (code_units "") =
       Returns (Num (String.length c)) /\
     levenshtein Ascii.eqb (code_units "") (code_units c) =
       Returns (Num (String.length c))) /\
  (forall candidates : list string,
     Array_filter (within_two "") candidates =
     Returns (filter (fun c => String.length c <=? 2) candidates)) /\
  (forall candidates : list string,
     suggest "" candidates =
     Returns (firstn 5 (filter (fun c => String.length c <=? 2) candidates))).
Proof.
  assert (L : forall c : string,
             levenshtein Ascii.eqb (code_units c) (code_units "") =
             Returns (Num (String.length c))).
  { intros c. rewrite levenshtein_prefix_distance. simpl rev at 2.
    now rewrite lev_nil_r, length_rev, code_units_length. }
  assert (F : forall candidates : list string,
             Array_filter (within_two "") candidates =
             Returns (filter (fun c => String.length c <=? 2) candidates)).
  { intros candidates. apply Array_filter_returns. intros c.
    unfold within_two. now rewrite L. }
  split; [|split].
  - intros c. split; [apply L|].
    rewrite levenshtein_prefix_distance. simpl rev at 1.
    now rewrite lev_nil_l, length_rev, code_units_length.
  - exact F.
  - intros candidates. unfold suggest. now rewrite F.
Qed.

Example suggest_none (q : string) : suggest q [] = Returns [].
Proof. reflexivity. Qed.

Example suggest_exact : suggest "ab" ["ab"] = Returns ["ab"].
Proof. reflexivity. Qed.

Example suggest_near :
  suggest "abc" ["ab"; "xyz"; "abcd"] = Returns ["ab"; "abcd"].
Proof. reflexivity. Qed.

Example suggest_empty_query :
  suggest "" ["gh"; "docs"; "a"; ""; "abc"] = Returns ["gh"; "a"; ""].
Proof. reflexivity. Qed.

(** Six keys within two edits: the sixth is dropped and the order is that
    of the candidates, the exact match last. *)
Example suggest_keeps_order :
  suggest "abc" ["abx"; "ab"; "zzz"; "a"; "abcde"; "abc"; "bc"] =
  Returns ["abx"; "ab"; "a"; "abcde"; "abc"].
Proof. reflexivity. Qed.

(** The worker filters by distance where its other copy does not. *)
Example suggest_filters :
  suggest "gx" (Object_keys demo) = Returns ["gh"] /\
  first_five_keys demo = ["gh"; "docs"; "health"].
Proof. split; reflexivity. Qed.

Lemma NoDup_firstn (T : Type) (n : nat) (l : list T) : NoDup l -> NoDup (firstn n l).
Proof.
  revert n. induction l as [|x l IH]; intros [|n] H; simpl; try constructor.
  - inversion H as [|? ? Hx Hl]; subst.
    intros Hin. apply Hx. revert Hin. clear.
    revert n. induction l as [|y l IH]; intros [|n]; simpl; try tauto.
    intros [->|Hin]; [now left|right; eauto].
  - inversion H; subst. now apply IH.
Qed.

Lemma In_firstn (T : Type) (n : nat) (l : list T) (x : T) :
  In x (firstn n l) -> In x l.
Proof.
  revert n. induction l as [|y l IH]; intros [|n]; simpl; try tauto.
  intros [->|Hin]; [now left|right; eauto].
Qed.

(** [suggest] returns the first five of them. *)
Lemma suggest_returns (query : string) (candidates : list string) :
  suggest query candidates = Returns (firstn 5 (near query candidates)).
Proof.
  unfold suggest, near.
  rewrite (Array_filter_returns _ (fun c => lev Ascii.eqb (code_units c) (code_units query) <=? 2)).
  - reflexivity.
  - intros c. apply within_two_lev.
Qed.

(** They are no more than five, none twice when no candidate comes twice,
    and each is a candidate that at most two edits turn into the query. *)
Lemma near_spec (query : string) (candidates : list string) :
  List.length (firstn 5 (near query candidates)) <= 5 /\
  (NoDup candidates -> NoDup (firstn 5 (near query candidates))) /\
  (forall c, In c (near query candidates) <->
     In c candidates /\
     exists d, d <= 2 /\ transforms d (code_units c) (code_units query)).
Proof.
  unfold near. split; [|split].
  - rewrite length_firstn. lia.
  - intros H. now apply NoDup_firstn, NoDup_filter.
  - intros c. rewrite filter_In, Nat.leb_le. split; intros [Hin Hd]; (split; [exact Hin|]).
    + exists (lev Ascii.eqb (code_units c) (code_units query)).
      split; [exact Hd|]. apply lev_reached, Ascii.eqb_eq.
    + destruct Hd as (d & Hd & Ht).
      pose proof (@lev_lower_bound ascii Ascii.eqb Ascii.eqb_eq _ _ _ Ht). lia.
Qed.

(** ** Property reads *)

Lemma own_property_In (o : mapping) (k v : string) :
  well_formed o -> In (k, v) (Object_entries o) -> own_property o k = Some v.
Proof.
  unfold well_formed, Object_entries, Object_keys.
  induction o as [|[k' v'] o IH]; simpl; intros Hnd Hin; [contradiction|].
  inversion Hnd as [|? ? Hk Ho]; subst.
  destruct Hin as [E|Hin].
  - inversion E; subst. now rewrite String.eqb_refl.
  - destruct (String.eqb k' k) eqn:E.
    + apply String.eqb_eq in E. subst k'. exfalso. apply Hk.
      change k with (fst (k, v)). now apply in_map.
    + now apply IH.
Qed.

Lemma own_property_has_key (o : mapping) (k : string) :
  has_key o k = match own_property o k with Some _ => true | None => false end.
Proof.
  unfold has_key, Object_keys.
  induction o as [|[k' v'] o IH]; simpl; [reflexivity|].
  rewrite (String.eqb_sym k k'). destruct (String.eqb k' k); simpl; [reflexivity|exact IH].
Qed.

Lemma own_property_parses (href : string -> option string) (o : mapping)
    (k v : string) :
  destinations_parse href o -> own_property o k = Some v ->
  v <> "" /\ href v <> None.
Proof.
  unfold destinations_parse.
  induction 1 as [|[k' v'] o Hv _ IH]; simpl; [discriminate|].
  destruct (String.eqb k' k); [|exact IH].
  intros E. inversion E; subst. exact Hv.
Qed.

Lemma reserved_false (path : string) :
  reserved path = false ->
  String.eqb path "/" = false /\ String.eqb path "/api/urls" = false /\
  String.eqb path "/health" = false.
Proof.
  unfold reserved. intros H.
  apply orb_false_elim in H. destruct H as [H H3].
  apply orb_false_elim in H. destruct H as [H1 H2]. now repeat split.
Qed.

Lemma nonempty_eqb (s : string) : s <> "" -> String.eqb s "" = false.
Proof. intros H. now apply String.eqb_neq. Qed.

(** ** The router *)

(** Past the reserved routes and the empty short code, the handler reads
    [URL_MAPPINGS[shortCode]] and branches on its truthiness. *)
Lemma fetch_lookup (href : string -> option string)
    (M : mapping) (now : string) (request : Request) (env : Env) :
  reserved (pathname request) = false ->
  substring_from 1 (pathname request) <> "" ->
  let shortCode := substring_from 1 (pathname request) in
  let targetUrl := get M shortCode in
  let point := mkDataPoint [targetUrl] [1] in
  result (fetch href M now request env) =
    if truthy targetUrl then
      match writeDataPoint env point with
      | Returns _ => Response_redirect href targetUrl 301
      | Throws => Throws
      end
    else
      match suggest shortCode (Object_keys M) with
      | Returns similar =>
          Returns (mkResponse 404
            [("Content-Type", "text/html"); ("Cache-Control", "public, max-age=300")]%string
            (BodyNotFoundPage shortCode (String.concat ", " similar) (origin request)))
      | Throws => Throws
      end.
Proof.
  intros Hres Hcode. cbv zeta. unfold fetch.
  destruct (reserved_false _ Hres) as (-> & -> & ->).
  rewrite (@nonempty_eqb _ Hcode).
  destruct (truthy (get M (substring_from 1 (pathname request)))).
  - destruct (writeDataPoint env _); reflexivity.
  - destruct (suggest _ _); reflexivity.
Qed.

(** C1, as the handler has it.  For every key [k] of the mapping whose
    path ["/" ++ k] is not one of the reserved routes ["/"], ["/api/urls"],
    ["/health"], whose destination is not empty and parses as a URL, and
    on which the analytics sink returns, [handle] answers 301, and the
    target is the destination as the URL parser serialises it: the
    destination itself when it is written in that form. *)
Theorem hit_redirects (href : string -> option string) (M : mapping)
    (now : string) (env : Env) (site k v target : string) :
  well_formed M ->
  In (k, v) M ->
  v <> "" ->
  href v = Some target ->
  reserved ("/" ++ k)%string = false ->
  writeDataPoint env (mkDataPoint [VString v] [1]) = Returns tt ->
  result (handle href M now env site ("/" ++ k)%string) =
    Returns (mkResponse 301 [("Location", target)]%string BodyNull) /\
  status_of (handle href M now env site ("/" ++ k)%string) = Some 301 /\
  target_of (handle href M now env site ("/" ++ k)%string) = Some target /\
  (target = v -> target_of (handle href M now env site ("/" ++ k)%string) = Some v).
Proof.
  intros Hwf Hin Hv Hurl Hres Hsink.
  assert (Hk : k <> "").
  { intros ->. discriminate Hres. }
  assert (R : result (handle href M now env site ("/" ++ k)%string) =
              Returns (mkResponse 301 [("Location", target)]%string BodyNull)).
  { unfold handle. rewrite fetch_lookup; [|exact Hres|exact Hk].
    cbn [pathname substring_from append].
    unfold get. rewrite (@own_property_In _ _ _ Hwf Hin).
    cbn [truthy]. rewrite (@nonempty_eqb _ Hv). cbn [negb].
    rewrite Hsink. unfold Response_redirect. now rewrite Hurl. }
  unfold status_of, target_of. rewrite R.
  split; [reflexivity|]. split; [reflexivity|]. split; [reflexivity|].
  now intros <-.
Qed.

Lemma hit_redirects_witness :
  result (handle sample_href [("ex", "https://example.com")]
            "2024-05-01T10:00:00.000Z" sink_ok "https://s.io" "/ex") =
    Returns (mkResponse 301 [("Location", "https://example.com/")]%string BodyNull) /\
  status_of (handle sample_href [("ex", "https://example.com")]
               "2024-05-01T10:00:00.000Z" sink_ok "https://s.io" "/ex") = Some 301 /\
  target_of (handle sample_href [("ex", "https://example.com")]
               "2024-05-01T10:00:00.000Z" sink_ok "https://s.io" "/ex") =
    Some "https://example.com/"%string /\
  ("https://example.com/"%string = "https://example.com"%string ->
   target_of (handle sample_href [("ex", "https://example.com")]
                "2024-05-01T10:00:00.000Z" sink_ok "https://s.io" "/ex") =
     Some "https://example.com"%string).
Proof.
  apply (@hit_redirects sample_href [("ex", "https://example.com")]
           "2024-05-01T10:00:00.000Z" sink_ok "https://s.io"
           "ex" "https://example.com" "https://example.com/").
  - unfold well_formed. simpl.
    repeat constructor; simpl; intuition discriminate.
  - simpl. now left.
  - discriminate.
  - reflexivity.
  - reflexivity.
  - reflexivity.
Defined.

(** C1 as it is stated fails on a key that names a reserved route: the
    build accepts the key ["health"], and ["/health"] answers the health
    check, status 200, not a redirect. *)
Lemma reserved_key_is_not_redirected :
  well_formed demo /\
  In ("health", "https://example.com/status")%string (Object_entries demo) /\
  build_accepts_key "health" = true /\
  sample_href "https://example.com/status" = Some "https://example.com/status"%string /\
  status_of (handle sample_href demo "2024-05-01T10:00:00.000Z" sink_ok "https://s.io"
               ("/" ++ "health")%string) = Some 200 /\
  status_of (handle sample_href demo "2024-05-01T10:00:00.000Z" sink_ok "https://s.io"
               ("/" ++ "health")%string) <> Some 301 /\
  target_of (handle sample_href demo "2024-05-01T10:00:00.000Z" sink_ok "https://s.io"
               ("/" ++ "health")%string) <> Some "https://example.com/status"%string.
Proof.
  split.
  { unfold well_formed. simpl. repeat constructor; simpl; intuition discriminate. }
  split; [simpl; tauto|].
  split; [reflexivity|]. split; [reflexivity|]. split; [reflexivity|].
  split; discriminate.
Qed.

(** C3, as the handler has it.  On a redirect hit the call of the analytics
    sink is not guarded: when it throws, the handler has logged the
    redirect and made the call, the error leaves [handle], and no response
    is returned. *)
Theorem sink_failure_propagates (href : string -> option string)
    (M : mapping) (now : string) (env : Env)
    (site k v : string) :
  well_formed M ->
  In (k, v) (Object_entries M) ->
  v <> "" ->
  reserved ("/" ++ k)%string = false ->
  writeDataPoint env (mkDataPoint [VString v] [1]) = Throws ->
  handle href M now env site ("/" ++ k)%string =
    mkOutcome
      [ConsoleLog [VString "Redirecting "; VString k; VString " to "; VString v];
       AnalyticsWrite (mkDataPoint [VString v] [1])]
      Throws.
Proof.
  intros Hwf Hin Hv Hres Hsink.
  assert (Hk : k <> "").
  { intros ->. discriminate Hres. }
  unfold handle, fetch. cbn [pathname].
  destruct (reserved_false _ Hres) as (-> & -> & ->).
  cbn [substring_from append]. rewrite (@nonempty_eqb _ Hk).
  unfold get. rewrite (@own_property_In _ _ _ Hwf Hin).
  cbn [truthy]. rewrite (@nonempty_eqb _ Hv). cbn [negb].
  now rewrite Hsink.
Qed.

Lemma sink_failure_propagates_witness :
  handle sample_href demo "2024-05-01T10:00:00.000Z" sink_down "https://s.io" "/gh" =
    mkOutcome
      [ConsoleLog [VString "Redirecting "; VString "gh"; VString " to ";
                   VString "https://github.com/"];
       AnalyticsWrite (mkDataPoint [VString "https://github.com/"] [1])]
      Throws.
Proof.
  apply (@sink_failure_propagates sample_href demo "2024-05-01T10:00:00.000Z" sink_down
           "https://s.io" "gh" "https://github.com/").
  - unfold well_formed. simpl.
    repeat constructor; simpl; intuition discriminate.
  - simpl. now left.
  - discriminate.
  - reflexivity.
  - reflexivity.
Defined.

(** C3 as it is stated fails: with a sink that throws, a hit returns no
    301. *)
Lemma sink_failure_blocks_the_redirect :
  In ("gh", "https://github.com/")%string (Object_entries demo) /\
  writeDataPoint sink_down (mkDataPoint [VString "https://github.com/"] [1]) = Throws /\
  result (handle sample_href demo "2024-05-01T10:00:00.000Z" sink_down "https://s.io" "/gh") = Throws /\
  status_of (handle sample_href demo "2024-05-01T10:00:00.000Z" sink_down "https://s.io" "/gh") <> Some 301.
Proof.
  split; [simpl; tauto|]. repeat split. discriminate.
Qed.

Lemma has_key_false (o : mapping) (k : string) :
  has_key o k = false -> own_property o k = None.
Proof.
  rewrite own_property_has_key. now destruct (own_property o k).
Qed.

(** Away from the names [Object.prototype] supplies, a short code that is
    no key gets the 404 page, and the page lists the suggestions: the first
    five keys, in the order of [Object.keys], within two edits of the short
    code. *)
Lemma miss_lists_suggestions (href : string -> option string)
    (M : mapping) (now : string) (env : Env)
    (site k : string) :
  has_key M k = false ->
  existsb (String.eqb k) Object_prototype_names = false ->
  k <> "" ->
  reserved ("/" ++ k)%string = false ->
  result (handle href M now env site ("/" ++ k)%string) =
    Returns (mkResponse 404
      [("Content-Type", "text/html"); ("Cache-Control", "public, max-age=300")]%string
      (BodyNotFoundPage k
         (String.concat ", " (firstn 5 (near k (Object_keys M)))) site)).
Proof.
  intros Hkey Hproto Hk Hres.
  unfold handle. rewrite fetch_lookup; [|exact Hres|exact Hk].
  cbn [pathname substring_from append origin].
  unfold get. rewrite (has_key_false _ _ Hkey), Hproto. cbn [truthy].
  now rewrite suggest_returns.
Qed.

Lemma inherited_names (k : string) :
  existsb (String.eqb k) Object_prototype_names = true ->
  k <> "" /\ reserved ("/" ++ k)%string = false.
Proof.
  intros H. apply existsb_exists in H. destruct H as (n & Hin & E).
  apply String.eqb_eq in E. subst n.
  unfold Object_prototype_names in Hin. simpl in Hin.
  repeat (destruct Hin as [<-|Hin]; [split; [discriminate|reflexivity]|]).
  contradiction.
Qed.

(** C2 fails on the names every object inherits: a short code such as
    ["constructor"] or ["toString"] that is no key of the mapping reads a
    member of [Object.prototype], which is truthy, so the handler takes the
    redirect branch with it and [Response.redirect] throws: no 404 and no
    suggestion list, whatever the sink does. *)
Theorem inherited_name_takes_the_redirect_branch (href : string -> option string)
    (M : mapping) (now : string)
    (env : Env) (site k : string) :
  inherited_only M k = true ->
  k <> "" /\
  reserved ("/" ++ k)%string = false /\
  has_key M k = false /\
  result (handle href M now env site ("/" ++ k)%string) = Throws /\
  status_of (handle href M now env site ("/" ++ k)%string) = None /\
  suggestions_of (handle href M now env site ("/" ++ k)%string) = None.
Proof.
  unfold inherited_only. intros H.
  apply andb_true_iff in H. destruct H as [Hkey Hproto].
  apply negb_true_iff in Hkey.
  destruct (inherited_names _ Hproto) as [Hk Hres].
  assert (R : result (handle href M now env site ("/" ++ k)%string) = Throws).
  { unfold handle. rewrite fetch_lookup; [|exact Hres|exact Hk].
    cbn [pathname substring_from append].
    unfold get. rewrite (has_key_false _ _ Hkey), Hproto. cbn [truthy].
    now destruct (writeDataPoint env _). }
  unfold status_of, suggestions_of. rewrite R. now repeat split.
Qed.

Lemma inherited_name_takes_the_redirect_branch_witness :
  "constructor"%string <> ""%string /\
  reserved ("/" ++ "constructor")%string = false /\
  has_key demo "constructor" = false /\
  result (handle sample_href demo "2024-05-01T10:00:00.000Z" sink_ok "https://s.io"
            ("/" ++ "constructor")%string) = Throws /\
  status_of (handle sample_href demo "2024-05-01T10:00:00.000Z" sink_ok "https://s.io"
               ("/" ++ "constructor")%string) = None /\
  suggestions_of (handle sample_href demo "2024-05-01T10:00:00.000Z" sink_ok "https://s.io"
                    ("/" ++ "constructor")%string) = None.
Proof.
  apply (@inherited_name_takes_the_redirect_branch sample_href demo
           "2024-05-01T10:00:00.000Z" sink_ok "https://s.io" "constructor").
  reflexivity.
Defined.

(** The keys of a mapping, counted: any list that holds each key once
    has as many elements as the mapping has entries. *)
Lemma key_count (M : mapping) (keys : list string) :
  well_formed M ->
  NoDup keys ->
  (forall k, In k keys <-> exists v, In (k, v) M) ->
  List.length keys = List.length M.
Proof.
  unfold well_formed, Object_keys. intros Hwf Hnd Hkeys.
  rewrite <- (length_map fst M).
  assert (E : forall k, In k keys <-> In k (map fst M)).
  { intros k. rewrite Hkeys, in_map_iff. split.
    - intros [v Hv]. now exists (k, v).
    - intros [[k' v] [<- Hv]]. now exists v. }
  apply Nat.le_antisymm; apply NoDup_incl_length; try assumption;
    intros k Hk; now apply E.
Qed.

(** C5.  ["/api/urls"] answers 200 with the three headers and the JSON
    object [{urls, count, buildTime}]: [urls] is the mapping, entry by
    entry, and [count] is the number of entries of the mapping, which is
    the number of its keys, however they are listed. *)
Theorem api_urls_lists_the_mapping (href : string -> option string)
    (M : mapping) (now : string) (env : Env) (site : string) :
  well_formed M ->
  exists r count,
    result (handle href M now env site "/api/urls") = Returns r /\
    status r = 200 /\
    headers r = [("Content-Type", "application/json");
                 ("Access-Control-Allow-Origin", "*");
                 ("Cache-Control", "public, max-age=3600")]%string /\
    header "Content-Type" r = Some "application/json"%string /\
    header "Access-Control-Allow-Origin" r = Some "*"%string /\
    header "Cache-Control" r = Some "public, max-age=3600"%string /\
    content r =
      BodyJson
        (JObject
           [("urls", JObject (map (fun kv => (fst kv, JString (snd kv))) M));
            ("count", JNumber count);
            ("buildTime", JString now)]%string) 2 /\
    count = List.length M /\
    (forall keys, NoDup keys ->
       (forall k, In k keys <-> exists v, In (k, v) M) ->
       List.length keys = count).
Proof.
  intros Hwf. eexists. exists (List.length M).
  split; [reflexivity|]. split; [reflexivity|]. split; [reflexivity|].
  split; [reflexivity|]. split; [reflexivity|]. split; [reflexivity|].
  split.
  - cbn [content]. unfold Object_keys, Object_entries.
    now rewrite length_map.
  - split; [reflexivity|]. intros keys Hnd Hkeys. now apply key_count.
Qed.

Lemma api_urls_lists_the_mapping_witness :
  exists r count,
    result (handle sample_href demo "2024-05-01T10:00:00.000Z" sink_ok "https://s.io"
              "/api/urls") = Returns r /\
    status r = 200 /\
    headers r = [("Content-Type", "application/json");
                 ("Access-Control-Allow-Origin", "*");
                 ("Cache-Control", "public, max-age=3600")]%string /\
    header "Content-Type" r = Some "application/json"%string /\
    header "Access-Control-Allow-Origin" r = Some "*"%string /\
    header "Cache-Control" r = Some "public, max-age=3600"%string /\
    content r =
      BodyJson
        (JObject
           [("urls", JObject (map (fun kv => (fst kv, JString (snd kv))) demo));
            ("count", JNumber count);
            ("buildTime", JString "2024-05-01T10:00:00.000Z")]%string) 2 /\
    count = List.length demo /\
    (forall keys, NoDup keys ->
       (forall k, In k keys <-> exists v, In (k, v) demo) ->
       List.length keys = count).
Proof.
  apply (@api_urls_lists_the_mapping sample_href demo "2024-05-01T10:00:00.000Z"
           sink_ok "https://s.io").
  unfold well_formed. simpl. repeat constructor; simpl; intuition discriminate.
Defined.

(** C6.  ["/health"] answers 200 with the JSON object
    [{status: "ok", urlCount, buildTime}], [urlCount] being the number of
    entries of the mapping, which is the number of its keys, however they
    are listed; so it does for the empty mapping, with 0. *)
Theorem health_reports_ok (href : string -> option string)
    (M : mapping) (now : string) (env : Env) (site : string) :
  well_formed M ->
  (exists r urlCount,
     result (handle href M now env site "/health") = Returns r /\
     status r = 200 /\
     header "Content-Type" r = Some "application/json"%string /\
     content r =
       BodyJson
         (JObject
            [("status", JString "ok");
             ("urlCount", JNumber urlCount);
             ("buildTime", JString now)]%string) 0 /\
     urlCount = List.length M /\
     (forall keys, NoDup keys ->
        (forall k, In k keys <-> exists v, In (k, v) M) ->
        List.length keys = urlCount)) /\
  status_of (handle href [] now env site "/health") = Some 200 /\
  result (handle href [] now env site "/health") =
    Returns (mkResponse 200 [("Content-Type", "application/json")]%string
      (BodyJson
         (JObject
            [("status", JString "ok"); ("urlCount", JNumber 0);
             ("buildTime", JString now)]%string) 0)).
Proof.
  intros Hwf. split; [|now split].
  eexists. exists (List.length M).
  split; [reflexivity|]. split; [reflexivity|]. split; [reflexivity|].
  split.
  - cbn [content]. unfold Object_keys. now rewrite length_map.
  - split; [reflexivity|]. intros keys Hnd Hkeys. now apply key_count.
Qed.

Lemma health_reports_ok_witness :
  (exists r urlCount,
     result (handle sample_href demo "2024-05-01T10:00:00.000Z" sink_ok "https://s.io"
               "/health") = Returns r /\
     status r = 200 /\
     header "Content-Type" r = Some "application/json"%string /\
     content r =
       BodyJson
         (JObject
            [("status", JString "ok");
             ("urlCount", JNumber urlCount);
             ("buildTime", JString "2024-05-01T10:00:00.000Z")]%string) 0 /\
     urlCount = List.length demo /\
     (forall keys, NoDup keys ->
        (forall k, In k keys <-> exists v, In (k, v) demo) ->
        List.length keys = urlCount)) /\
  status_of (handle sample_href [] "2024-05-01T10:00:00.000Z" sink_ok "https://s.io"
               "/health") = Some 200 /\
  result (handle sample_href [] "2024-05-01T10:00:00.000Z" sink_ok "https://s.io"
            "/health") =
    Returns (mkResponse 200 [("Content-Type", "application/json")]%string
      (BodyJson
         (JObject
            [("status", JString "ok"); ("urlCount", JNumber 0);
             ("buildTime", JString "2024-05-01T10:00:00.000Z")]%string) 0)).
Proof.
  apply (@health_reports_ok sample_href demo "2024-05-01T10:00:00.000Z"
           sink_ok "https://s.io").
  unfold well_formed. simpl. repeat constructor; simpl; intuition discriminate.
Defined.

(** C7.  A path that is none of the reserved routes and leaves nothing
    once its first character is dropped gets status 404 with the plain
    text body ["Not Found"]: no HTML, no header passed, so the one header
    is the [text/plain] content type a response made of a string has, and
    nothing is logged.  Such a path has at most one character and does
    not start with a slash. *)
Theorem empty_code_is_plain_not_found (href : string -> option string)
    (M : mapping) (now : string) (env : Env) (site path : string) :
  reserved path = false ->
  substring_from 1 path = ""%string ->
  handle href M now env site path =
    mkOutcome []
      (Returns (mkResponse 404 [("content-type", "text/plain;charset=UTF-8")]%string
         (BodyText "Not Found"))) /\
  String.length path <= 1 /\
  starts_with "/" path = false.
Proof.
  intros Hres Hcode. split.
  - unfold handle, fetch. cbn [pathname].
    destruct (reserved_false _ Hres) as (-> & -> & ->).
    now rewrite Hcode.
  - destruct path as [|c [|d rest]];
      [split; [simpl; lia|reflexivity]| |discriminate Hcode].
    split; [simpl; lia|].
    destruct (reserved_false _ Hres) as (H & _ & _).
    cbn [String.eqb] in H. cbn [starts_with].
    rewrite Ascii.eqb_sym. destruct (Ascii.eqb c "/"); [discriminate H|reflexivity].
Qed.

Lemma empty_code_is_plain_not_found_witness :
  handle sample_href demo "2024-05-01T10:00:00.000Z" sink_ok "https://s.io" "" =
    mkOutcome []
      (Returns (mkResponse 404 [("content-type", "text/plain;charset=UTF-8")]%string
         (BodyText "Not Found"))) /\
  String.length "" <= 1 /\
  starts_with "/" "" = false.
Proof.
  apply (@empty_code_is_plain_not_found sample_href demo "2024-05-01T10:00:00.000Z"
           sink_ok "https://s.io" "").
  - reflexivity.
  - reflexivity.
Defined.



(** C10, as the handler has it.  When the destinations of the mapping
    parse as URLs and the short code is not a name read from
    [Object.prototype] alone, the status of the answer is 200 on the three
    reserved routes, also when the short code is a key; otherwise 404 for
    the empty short code; otherwise, for a key of the mapping, 301 when
    the call of the sink returns and no answer at all when it throws; and
    404 for the rest. *)
Theorem status_by_route (href : string -> option string)
    (M : mapping) (now : string) (env : Env) (site path : string) :
  destinations_parse href M ->
  inherited_only M (substring_from 1 path) = false ->
  status_of (handle href M now env site path) =
    (if reserved path then Some 200
     else if String.eqb (substring_from 1 path) "" then Some 404
     else match own_property M (substring_from 1 path) with
          | Some v =>
              match writeDataPoint env (mkDataPoint [VString v] [1]) with
              | Returns _ => Some 301
              | Throws => None
              end
          | None => Some 404
          end) /\
  (has_key M (substring_from 1 path) = true <->
   exists v, own_property M (substring_from 1 path) = Some v).
Proof.
  intros Hdest Hinh. split.
  - destruct (reserved path) eqn:Hres.
    + unfold reserved in Hres. unfold status_of, handle, fetch. cbn [pathname].
      destruct (String.eqb path "/"); [reflexivity|].
      destruct (String.eqb path "/api/urls"); [reflexivity|].
      destruct (String.eqb path "/health"); [reflexivity|discriminate].
    + destruct (String.eqb (substring_from 1 path) "") eqn:Hcode.
      * unfold status_of, handle, fetch. cbn [pathname].
        destruct (reserved_false _ Hres) as (-> & -> & ->).
        now rewrite Hcode.
      * apply String.eqb_neq in Hcode.
        unfold status_of, handle. rewrite fetch_lookup; [|exact Hres|exact Hcode].
        cbn [pathname]. unfold get.
        unfold inherited_only in Hinh. rewrite own_property_has_key in Hinh.
        destruct (own_property M (substring_from 1 path)) as [v|] eqn:Hown.
        -- destruct (own_property_parses _ Hdest Hown) as [Hv Hurl].
           cbn [truthy]. rewrite (@nonempty_eqb v Hv). cbn [negb].
           destruct (writeDataPoint env _); [|reflexivity].
           unfold Response_redirect. now destruct (href v).
        -- cbn [negb andb] in Hinh. rewrite Hinh. cbn [truthy].
           now rewrite suggest_returns.
  - rewrite own_property_has_key.
    destruct (own_property M (substring_from 1 path)) as [v|].
    + split; [intros _; now exists v|reflexivity].
    + split; [discriminate|intros [v Hv]; discriminate].
Qed.

Lemma status_by_route_witness :
  (status_of (handle sample_href demo "2024-05-01T10:00:00.000Z" sink_ok "https://s.io"
                "/docs") = Some 301 /\
   (has_key demo (substring_from 1 "/docs") = true <->
    exists v, own_property demo (substring_from 1 "/docs") = Some v)) /\
  (status_of (handle sample_href demo "2024-05-01T10:00:00.000Z" sink_down "https://s.io"
                "/docs") = None /\
   (has_key demo (substring_from 1 "/docs") = true <->
    exists v, own_property demo (substring_from 1 "/docs") = Some v)) /\
  (status_of (handle sample_href demo "2024-05-01T10:00:00.000Z" sink_ok "https://s.io"
                "/dosc") = Some 404 /\
   (has_key demo (substring_from 1 "/dosc") = true <->
    exists v, own_property demo (substring_from 1 "/dosc") = Some v)) /\
  (status_of (handle sample_href demo "2024-05-01T10:00:00.000Z" sink_ok "https://s.io"
                "/health") = Some 200 /\
   (has_key demo (substring_from 1 "/health") = true <->
    exists v, own_property demo (substring_from 1 "/health") = Some v)).
Proof.
  assert (Hd : destinations_parse sample_href demo).
  { unfold destinations_parse, demo. repeat constructor; discriminate. }
  split; [|split; [|split]].
  - apply (@status_by_route sample_href demo "2024-05-01T10:00:00.000Z" sink_ok
             "https://s.io" "/docs" Hd eq_refl).
  - apply (@status_by_route sample_href demo "2024-05-01T10:00:00.000Z" sink_down
             "https://s.io" "/docs" Hd eq_refl).
  - apply (@status_by_route sample_href demo "2024-05-01T10:00:00.000Z" sink_ok
             "https://s.io" "/dosc" Hd eq_refl).
  - apply (@status_by_route sample_href demo "2024-05-01T10:00:00.000Z" sink_ok
             "https://s.io" "/health" Hd eq_refl).
Defined.

(** C10 as it is stated fails where a key names a reserved route: the
    short code of ["/health"] is a key of the mapping, and the status is
    200, not 301. *)
Lemma reserved_route_wins_over_key :
  has_key demo (substring_from 1 "/health") = true /\
  reserved "/health" = true /\
  status_of (handle sample_href demo "2024-05-01T10:00:00.000Z" sink_ok "https://s.io"
               "/health") = Some 200 /\
  status_of (handle sample_href demo "2024-05-01T10:00:00.000Z" sink_ok "https://s.io"
               "/health") <> Some 301.
Proof.
  split; [reflexivity|]. split; [reflexivity|]. split; [reflexivity|discriminate].
Qed.

(** * Further properties of the worker *)

(** ** The distance as a metric *)

Section Metric.

Variable A : Type.
Variable eqb : A -> A -> bool.
Hypothesis eqb_eq : forall x y, eqb x y = true <-> x = y.

Local Abbreviation lev := (lev eqb).

Lemma edit1_sym (a b : list A) : edit1 a b -> edit1 b a.
Proof. intros [p x s|p x s|p x y s]; constructor. Qed.

Lemma transforms_trans (n m : nat) (a b c : list A) :
  transforms n a b -> transforms m b c -> transforms (n + m) a c.
Proof.
  induction 1 as [l|n l1 l2 l3 He _ IH]; intros Hc; [exact Hc|].
  simpl. eapply transforms_step; [exact He|now apply IH].
Qed.

Lemma transforms_sym (n : nat) (a b : list A) :
  transforms n a b -> transforms n b a.
Proof.
  induction 1 as [l|n l1 l2 l3 He _ IH]; [constructor|].
  apply transforms_count with (n + 1); [lia|].
  apply transforms_trans with l2; [exact IH|].
  eapply transforms_step; [apply edit1_sym, He|constructor].
Qed.

Lemma lev_sym (a b : list A) : lev a b = lev b a.
Proof.
  apply Nat.le_antisymm; apply (lev_lower_bound eqb eqb_eq), transforms_sym,
    (lev_reached eqb eqb_eq).
Qed.

Lemma lev_triangle (a b c : list A) : lev a c <= lev a b + lev b c.
Proof.
  apply (lev_lower_bound eqb eqb_eq).
  apply transforms_trans with b; apply (lev_reached eqb eqb_eq).
Qed.

Lemma lev_zero (a b : list A) : lev a b = 0 <-> a = b.
Proof.
  split.
  - intros H. pose proof (lev_reached eqb eqb_eq a b) as T. rewrite H in T.
    now inversion T.
  - intros ->. now apply (lev_refl eqb eqb_eq).
Qed.

Lemma edit1_length (a b : list A) :
  edit1 a b -> List.length a <= List.length b + 1 /\ List.length b <= List.length a + 1.
Proof.
  intros [p x s|p x s|p x y s]; rewrite !length_app; simpl; lia.
Qed.

Lemma transforms_length (n : nat) (a b : list A) :
  transforms n a b ->
  List.length a <= List.length b + n /\ List.length b <= List.length a + n.
Proof.
  induction 1 as [l|n l1 l2 l3 He _ IH]; [lia|].
  apply edit1_length in He. lia.
Qed.

Lemma lev_upper (a b : list A) : lev a b <= Nat.max (List.length a) (List.length b).
Proof.
  revert b. induction a as [|x a IH]; intros b.
  - rewrite lev_nil_l. lia.
  - destruct b as [|y b].
    + rewrite lev_nil_r. lia.
    + rewrite lev_cons_cons. specialize (IH b).
      pose proof (subst_cost_le eqb x y). simpl List.length. lia.
Qed.

Lemma lev_cons_same (x : A) (a b : list A) : lev (x :: a) (x :: b) = lev a b.
Proof.
  rewrite lev_cons_cons, (subst_cost_refl eqb eqb_eq).
  pose proof (lev_delete_head eqb x a b) as H1.
  pose proof (lev_delete_head eqb x b a) as H2.
  rewrite (lev_sym b a), (lev_sym b (x :: a)) in H2. lia.
Qed.

Lemma lev_common_prefix (p a b : list A) : lev (p ++ a) (p ++ b) = lev a b.
Proof.
  induction p as [|x p IH]; [reflexivity|].
  rewrite <- !app_comm_cons, lev_cons_same. exact IH.
Qed.

Lemma lev_common_suffix (s a b : list A) : lev (a ++ s) (b ++ s) = lev a b.
Proof.
  rewrite <- (lev_rev eqb eqb_eq (a ++ s)), !rev_app_distr, lev_common_prefix.
  apply (lev_rev eqb eqb_eq).
Qed.

End Metric.

(** X1.  [levenshtein] is symmetric: the worker calls it with the key
    first and the short code second, and the other order returns the same
    number. *)
Theorem levenshtein_symmetric (A : Type) (eqb : A -> A -> bool)
    (eqb_eq : forall x y, eqb x y = true <-> x = y) (a b : list A) :
  levenshtein eqb a b = levenshtein eqb b a.
Proof.
  rewrite !(levenshtein_lev eqb eqb_eq). now rewrite (lev_sym eqb eqb_eq).
Qed.

Lemma levenshtein_symmetric_witness :
  levenshtein Ascii.eqb (code_units "docs") (code_units "dosc") =
  levenshtein Ascii.eqb (code_units "dosc") (code_units "docs").
Proof.
  exact (@levenshtein_symmetric ascii Ascii.eqb Ascii.eqb_eq
           (code_units "docs") (code_units "dosc")).
Defined.

(** X2.  [levenshtein] returns 0 exactly on equal strings. *)
Theorem levenshtein_zero_iff_equal (A : Type) (eqb : A -> A -> bool)
    (eqb_eq : forall x y, eqb x y = true <-> x = y) (a b : list A) :
  levenshtein eqb a b = Returns (Num 0) <-> a = b.
Proof.
  rewrite (levenshtein_lev eqb eqb_eq). split.
  - intros H. apply (lev_zero eqb eqb_eq). congruence.
  - intros E. f_equal. f_equal. now apply (lev_zero eqb eqb_eq).
Qed.

Lemma levenshtein_zero_iff_equal_witness :
  levenshtein Ascii.eqb (code_units "gh") (code_units "gh") = Returns (Num 0) <->
  code_units "gh" = code_units "gh".
Proof.
  exact (@levenshtein_zero_iff_equal ascii Ascii.eqb Ascii.eqb_eq
           (code_units "gh") (code_units "gh")).
Defined.

(** X3.  The triangle inequality: the number returned for [a] and [c] is
    at most the sum of those returned for [a] and [b] and for [b] and [c]. *)
Theorem levenshtein_triangle (A : Type) (eqb : A -> A -> bool)
    (eqb_eq : forall x y, eqb x y = true <-> x = y) (a b c : list A) :
  exists dab dbc dac,
    levenshtein eqb a b = Returns (Num dab) /\
    levenshtein eqb b c = Returns (Num dbc) /\
    levenshtein eqb a c = Returns (Num dac) /\
    dac <= dab + dbc.
Proof.
  exists (lev eqb a b), (lev eqb b c), (lev eqb a c).
  rewrite !(levenshtein_lev eqb eqb_eq). repeat split.
  now apply (lev_triangle eqb eqb_eq).
Qed.

Lemma levenshtein_triangle_witness :
  exists dab dbc dac,
    levenshtein Ascii.eqb (code_units "docs") (code_units "dosc") = Returns (Num dab) /\
    levenshtein Ascii.eqb (code_units "dosc") (code_units "disc") = Returns (Num dbc) /\
    levenshtein Ascii.eqb (code_units "docs") (code_units "disc") = Returns (Num dac) /\
    dac <= dab + dbc.
Proof.
  exact (@levenshtein_triangle ascii Ascii.eqb Ascii.eqb_eq
           (code_units "docs") (code_units "dosc") (code_units "disc")).
Defined.

(** X4.  The number returned lies between the difference of the two
    lengths and the longer of the two lengths. *)
Theorem levenshtein_bounds (A : Type) (eqb : A -> A -> bool)
    (eqb_eq : forall x y, eqb x y = true <-> x = y) (a b : list A) :
  exists d, levenshtein eqb a b = Returns (Num d) /\
    List.length a - List.length b <= d /\
    List.length b - List.length a <= d /\
    d <= Nat.max (List.length a) (List.length b).
Proof.
  exists (lev eqb a b). split; [now apply levenshtein_lev|].
  pose proof (transforms_length (lev_reached eqb eqb_eq a b)) as [H1 H2].
  pose proof (lev_upper eqb a b). lia.
Qed.

Lemma levenshtein_bounds_witness :
  exists d,
    levenshtein Ascii.eqb (code_units "gh") (code_units "health") = Returns (Num d) /\
    List.length (code_units "gh") - List.length (code_units "health") <= d /\
    List.length (code_units "health") - List.length (code_units "gh") <= d /\
    d <= Nat.max (List.length (code_units "gh")) (List.length (code_units "health")).
Proof.
  exact (@levenshtein_bounds ascii Ascii.eqb Ascii.eqb_eq
           (code_units "gh") (code_units "health")).
Defined.

(** X5.  A prefix and a suffix that the two strings share do not count:
    [levenshtein(p + a + s, p + b + s)] is [levenshtein(a, b)]. *)
Theorem levenshtein_common_affixes (A : Type) (eqb : A -> A -> bool)
    (eqb_eq : forall x y, eqb x y = true <-> x = y) (p s a b : list A) :
  levenshtein eqb (p ++ a ++ s) (p ++ b ++ s) = levenshtein eqb a b.
Proof.
  rewrite !(levenshtein_lev eqb eqb_eq).
  now rewrite (lev_common_prefix eqb eqb_eq), (lev_common_suffix eqb eqb_eq).
Qed.

Lemma levenshtein_common_affixes_witness :
  levenshtein Ascii.eqb (code_units "my-" ++ code_units "docs" ++ code_units "-v2")
    (code_units "my-" ++ code_units "dosc" ++ code_units "-v2") =
  levenshtein Ascii.eqb (code_units "docs") (code_units "dosc").
Proof.
  exact (@levenshtein_common_affixes ascii Ascii.eqb Ascii.eqb_eq
           (code_units "my-") (code_units "-v2") (code_units "docs") (code_units "dosc")).
Defined.

(** ** The suggestion engine, further *)

Lemma near_app (query : string) (l l' : list string) :
  near query (l ++ l') = near query l ++ near query l'.
Proof. unfold near. apply filter_app. Qed.

Lemma near_lengths (query c : string) (candidates : list string) :
  In c (near query candidates) ->
  String.length c <= String.length query + 2 /\
  String.length query <= String.length c + 2.
Proof.
  unfold near. rewrite filter_In, Nat.leb_le. intros [_ Hd].
  pose proof (transforms_length
                (lev_reached Ascii.eqb Ascii.eqb_eq (code_units c) (code_units query)))
    as [H1 H2].
  rewrite !code_units_length in *. lia.
Qed.

(** X6.  No suggestion is more than two characters longer or shorter than
    the query: a candidate whose length differs by three or more is never
    listed. *)
Theorem suggestions_have_close_lengths (query : string) (candidates : list string) :
  exists l, suggest query candidates = Returns l /\
    forall c, In c l ->
      String.length c <= String.length query + 2 /\
      String.length query <= String.length c + 2.
Proof.
  exists (firstn 5 (near query candidates)). split; [apply suggest_returns|].
  intros c Hc. apply In_firstn in Hc. now apply near_lengths in Hc.
Qed.

(** X7.  Keys that come after the others in the array that is filtered
    never remove or reorder a suggestion: the list for the shorter array
    is the beginning of the list for the longer one, and once five keys
    are listed nothing that comes later shows.  (The array is that of
    [Object.keys], which has a key added to the mapping last unless the
    key is the text of an integer.) *)
Theorem suggestions_stable_under_added_keys (query : string) (l l' : list string) :
  exists s s',
    suggest query l = Returns s /\
    suggest query (l ++ l') = Returns s' /\
    is_prefix s s' /\
    (List.length s = 5 -> s' = s).
Proof.
  exists (firstn 5 (near query l)), (firstn 5 (near query (l ++ l'))).
  split; [apply suggest_returns|]. split; [apply suggest_returns|].
  rewrite near_app, firstn_app. split.
  - eexists. reflexivity.
  - intros H5. rewrite length_firstn in H5.
    replace (5 - List.length (near query l)) with 0 by lia.
    simpl. apply app_nil_r.
Qed.

(** X8.  Nothing is dropped before the sixth: the list has as many keys as
    are within two edits of the query, up to five, and when at most five
    are, it is all of them, each key of the candidates that at most two
    edits turn into the query. *)
Theorem suggestions_are_complete_up_to_five (query : string) (candidates : list string) :
  exists s, suggest query candidates = Returns s /\
    List.length s = Nat.min 5 (List.length (near query candidates)) /\
    (List.length (near query candidates) <= 5 ->
     forall c, In c s <->
       In c candidates /\
       exists d, d <= 2 /\ transforms d (code_units c) (code_units query)).
Proof.
  exists (firstn 5 (near query candidates)). split; [apply suggest_returns|].
  split; [apply length_firstn|].
  intros Hle c. rewrite firstn_all2 by exact Hle.
  apply (proj2 (proj2 (near_spec query candidates))).
Qed.

Lemma suggestions_are_complete_up_to_five_witness :
  exists s, suggest "gx" (Object_keys demo) = Returns s /\
    List.length s = Nat.min 5 (List.length (near "gx" (Object_keys demo))) /\
    (List.length (near "gx" (Object_keys demo)) <= 5 ->
     forall c, In c s <->
       In c (Object_keys demo) /\
       exists d, d <= 2 /\ transforms d (code_units c) (code_units "gx")).
Proof.
  exact (suggestions_are_complete_up_to_five "gx" (Object_keys demo)).
Defined.

(** ** The router, further *)

Lemma get_cases (M : mapping) (k : string) :
  (exists v, own_property M k = Some v /\ get M k = VString v) \/
  (own_property M k = None /\ inherited_only M k = true /\ get M k = VInherited k) \/
  (own_property M k = None /\ inherited_only M k = false /\ get M k = VUndefined).
Proof.
  unfold get, inherited_only. rewrite own_property_has_key.
  destruct (own_property M k) as [v|].
  - left. now exists v.
  - right. cbn [negb andb].
    destruct (existsb (String.eqb k) Object_prototype_names); [left|right]; now repeat split.
Qed.

Lemma eqb_empty (s : string) : String.eqb s "" = true <-> s = "".
Proof. apply String.eqb_eq. Qed.

(** The answer of [fetch], case by case. *)
Lemma fetch_result (href : string -> option string)
    (M : mapping) (now : string) (request : Request) (env : Env) :
  let code := substring_from 1 (pathname request) in
  (reserved (pathname request) = true /\
   status_of (fetch href M now request env) = Some 200) \/
  (reserved (pathname request) = false /\ code = "" /\
   status_of (fetch href M now request env) = Some 404) \/
  (reserved (pathname request) = false /\ code <> "" /\
   truthy (get M code) = false /\
   status_of (fetch href M now request env) = Some 404) \/
  (reserved (pathname request) = false /\ code <> "" /\
   inherited_only M code = true /\
   result (fetch href M now request env) = Throws) \/
  (exists v, reserved (pathname request) = false /\ code <> "" /\
   own_property M code = Some v /\ v <> "" /\
   writeDataPoint env (mkDataPoint [VString v] [1]) = Throws /\
   result (fetch href M now request env) = Throws) \/
  (exists v, reserved (pathname request) = false /\ code <> "" /\
   own_property M code = Some v /\ v <> "" /\
   writeDataPoint env (mkDataPoint [VString v] [1]) <> Throws /\
   href v = None /\
   result (fetch href M now request env) = Throws) \/
  (exists v target, reserved (pathname request) = false /\ code <> "" /\
   own_property M code = Some v /\ v <> "" /\
   writeDataPoint env (mkDataPoint [VString v] [1]) <> Throws /\
   href v = Some target /\
   result (fetch href M now request env) =
     Returns (mkResponse 301 [("Location", target)] BodyNull)).
Proof.
  cbv zeta. destruct (reserved (pathname request)) eqn:Hres.
  - left. split; [reflexivity|].
    unfold reserved in Hres. unfold status_of, fetch.
    destruct (String.eqb (pathname request) "/"); [reflexivity|].
    destruct (String.eqb (pathname request) "/api/urls"); [reflexivity|].
    destruct (String.eqb (pathname request) "/health"); [reflexivity|discriminate].
  - right.
    destruct (String.eqb (substring_from 1 (pathname request)) "") eqn:Hcode.
    + left. apply String.eqb_eq in Hcode. repeat split; [exact Hcode|].
      unfold status_of, fetch.
      destruct (reserved_false _ Hres) as (-> & -> & ->).
      now rewrite Hcode.
    + right. apply String.eqb_neq in Hcode.
      pose proof (fetch_lookup href M now request env Hres Hcode) as R. cbv zeta in R.
      destruct (get_cases M (substring_from 1 (pathname request)))
        as [(v & Hown & Hget)|[(Hown & Hinh & Hget)|(Hown & Hinh & Hget)]];
        rewrite Hget in R; cbn [truthy] in R.
      * destruct (String.eqb v "") eqn:Hv; cbn [negb] in R.
        -- left. repeat split; [exact Hcode| |].
           ++ rewrite Hget. cbn [truthy]. now rewrite Hv.
           ++ unfold status_of. rewrite R, suggest_returns. reflexivity.
        -- right. right. apply String.eqb_neq in Hv.
           destruct (writeDataPoint env (mkDataPoint [VString v] [1])) eqn:Hsink.
           ++ right. unfold Response_redirect in R.
              destruct (href v) as [target|] eqn:Hurl.
              ** right. exists v, target.
                 split; [reflexivity|]. split; [exact Hcode|]. split; [exact Hown|].
                 split; [exact Hv|]. split; [rewrite Hsink; discriminate|].
                 split; [exact Hurl|exact R].
              ** left. exists v.
                 split; [reflexivity|]. split; [exact Hcode|]. split; [exact Hown|].
                 split; [exact Hv|]. split; [rewrite Hsink; discriminate|].
                 split; [exact Hurl|exact R].
           ++ left. exists v.
              split; [reflexivity|]. split; [exact Hcode|]. split; [exact Hown|].
              split; [exact Hv|]. split; [exact Hsink|exact R].
      * right. left. repeat split; try assumption.
        now destruct (writeDataPoint env _).
      * left. repeat split; [exact Hcode|now rewrite Hget|].
        unfold status_of. rewrite R, suggest_returns. reflexivity.
Qed.

Lemma truthy_own (M : mapping) (k v : string) :
  own_property M k = Some v -> v <> "" -> truthy (get M k) = true.
Proof.
  intros Ho Hv. unfold get. rewrite Ho. cbn [truthy].
  now rewrite (@nonempty_eqb _ Hv).
Qed.

Lemma truthy_inherited (M : mapping) (k : string) :
  inherited_only M k = true ->
  truthy (get M k) = true /\ own_property M k = None.
Proof.
  intros Hi. unfold inherited_only in Hi. apply andb_true_iff in Hi.
  destruct Hi as [Hk Hp]. apply negb_true_iff in Hk. apply has_key_false in Hk.
  unfold get. now rewrite Hk, Hp.
Qed.

(** X9.  [handle] throws in three cases and no other: the short code
    reads a member of [Object.prototype] and no key; or it is a key with a
    destination and the call of the analytics sink throws; or it is a key
    with a destination that does not parse as a URL.  The reserved routes,
    the empty short code and the misses never throw. *)
Theorem handle_throws_exactly_when (href : string -> option string)
    (M : mapping) (now : string) (env : Env) (site path : string) :
  result (handle href M now env site path) = Throws <->
  reserved path = false /\ substring_from 1 path <> "" /\
  (inherited_only M (substring_from 1 path) = true \/
   exists v, own_property M (substring_from 1 path) = Some v /\ v <> "" /\
     (writeDataPoint env (mkDataPoint [VString v] [1]) = Throws \/ href v = None)).
Proof.
  unfold handle.
  pose proof (fetch_result href M now (mkRequest site path) env) as C.
  cbv zeta in C. cbn [pathname] in C. unfold status_of in C.
  destruct C as [(Hres & R)|[(Hres & Hc & R)|[(Hres & Hc & Ht & R)|
    [(Hres & Hc & Hi & R)|[(v & Hres & Hc & Ho & Hv & Hs & R)|
     [(v & Hres & Hc & Ho & Hv & Hs & Hu & R)|
      (v & u & Hres & Hc & Ho & Hv & Hs & Hu & R)]]]]]].
  - split; [intros E; rewrite E in R; discriminate|].
    intros (E & _). congruence.
  - split; [intros E; rewrite E in R; discriminate|].
    intros (_ & E & _). contradiction.
  - split; [intros E; rewrite E in R; discriminate|].
    intros (_ & _ & [Hi|(v & Ho & Hv & _)]).
    + destruct (truthy_inherited _ _ Hi). congruence.
    + rewrite (truthy_own _ _ Ho Hv) in Ht. discriminate.
  - split; [intros _|intros _; exact R]. repeat split; try assumption. now left.
  - split; [intros _|intros _; exact R]. repeat split; try assumption.
    right. exists v. repeat split; try assumption. now left.
  - split; [intros _|intros _; exact R]. repeat split; try assumption.
    right. exists v. repeat split; try assumption. now right.
  - split; [intros E; rewrite E in R; discriminate|].
    intros (_ & _ & [Hi|(w & Ho' & _ & Hs')]).
    + destruct (truthy_inherited _ _ Hi). congruence.
    + rewrite Ho in Ho'. inversion Ho'; subst w.
      destruct Hs'; [contradiction|congruence].
Qed.

(** X10.  An answer of [handle] has status 200, 301 or 404: 200 exactly
    on the three reserved paths; 301 exactly when the path is not
    reserved, the short code is a key with a non-empty destination that
    parses as a URL, and the sink returns; 404 exactly when the path is
    not reserved and the short code is empty or reads a falsy value. *)
Theorem handle_status_exactly (href : string -> option string)
    (M : mapping) (now : string) (env : Env) (site path : string) :
  let o := handle href M now env site path in
  let code := substring_from 1 path in
  (status_of o = None \/ status_of o = Some 200 \/
   status_of o = Some 301 \/ status_of o = Some 404) /\
  (status_of o = Some 200 <-> reserved path = true) /\
  (status_of o = Some 301 <->
     reserved path = false /\ code <> "" /\
     exists v, own_property M code = Some v /\ v <> "" /\
       writeDataPoint env (mkDataPoint [VString v] [1]) <> Throws /\
       href v <> None) /\
  (status_of o = Some 404 <->
     reserved path = false /\ (code = "" \/ truthy (get M code) = false)).
Proof.
  cbv zeta. unfold handle.
  pose proof (fetch_result href M now (mkRequest site path) env) as C.
  cbv zeta in C. cbn [pathname] in C.
  pose proof (@truthy_own M (substring_from 1 path)) as T.
  pose proof (@truthy_inherited M (substring_from 1 path)) as I.
  destruct C as [(Hres & R)|[(Hres & Hc & R)|[(Hres & Hc & Ht & R)|
    [(Hres & Hc & Hi & R)|[(v & Hres & Hc & Ho & Hv & Hs & R)|
     [(v & Hres & Hc & Ho & Hv & Hs & Hu & R)|
      (v & u & Hres & Hc & Ho & Hv & Hs & Hu & R)]]]]]].
  - rewrite R. split; [tauto|]. split; [tauto|]. split.
    + split; [discriminate|]. intros (E & _). congruence.
    + split; [discriminate|]. intros (E & _). congruence.
  - rewrite R. split; [tauto|]. split; [|split].
    + split; [discriminate|]. congruence.
    + split; [discriminate|]. intros (_ & E & _). contradiction.
    + split; [|reflexivity]. intros _. split; [exact Hres|now left].
  - rewrite R. split; [tauto|]. split; [|split].
    + split; [discriminate|]. congruence.
    + split; [discriminate|]. intros (_ & _ & w & Ho & Hw & _).
      rewrite (T w Ho Hw) in Ht. discriminate.
    + split; [|reflexivity]. intros _. split; [exact Hres|now right].
  - destruct (I Hi) as [Ht Ho].
    unfold status_of. rewrite R. split; [tauto|]. split; [|split].
    + split; [discriminate|]. congruence.
    + split; [discriminate|]. intros (_ & _ & w & Ho' & _). congruence.
    + split; [discriminate|]. intros (_ & [E|E]); [contradiction|congruence].
  - unfold status_of. rewrite R. split; [tauto|]. split; [|split].
    + split; [discriminate|]. congruence.
    + split; [discriminate|]. intros (_ & _ & w & Ho' & _ & Hs' & _).
      rewrite Ho in Ho'. inversion Ho'; subst w. contradiction.
    + split; [discriminate|]. intros (_ & [E|E]); [contradiction|].
      rewrite (T v Ho Hv) in E. discriminate.
  - unfold status_of. rewrite R. split; [tauto|]. split; [|split].
    + split; [discriminate|]. congruence.
    + split; [discriminate|]. intros (_ & _ & w & Ho' & _ & _ & Hu').
      rewrite Ho in Ho'. inversion Ho'; subst w. contradiction.
    + split; [discriminate|]. intros (_ & [E|E]); [contradiction|].
      rewrite (T v Ho Hv) in E. discriminate.
  - unfold status_of. rewrite R. cbn [status]. split; [tauto|]. split; [|split].
    + split; [discriminate|]. congruence.
    + split; [|reflexivity]. intros _. repeat split; try assumption.
      exists v. repeat split; try assumption. congruence.
    + split; [discriminate|]. intros (_ & [E|E]); [contradiction|].
      rewrite (T v Ho Hv) in E. discriminate.
Qed.

(** X11.  The analytics sink is written to on the redirect branch only:
    a write carries the value read for the short code as its one blob and
    1 as its one double; an answer with status 200 or 404 comes with no
    write; and a 301 comes with the log line and one write, both of the
    destination as the mapping has it, of which the target of the 301 is
    the serialisation. *)
Theorem analytics_written_only_on_redirects (href : string -> option string)
    (M : mapping) (now : string) (env : Env) (site path : string) :
  let o := handle href M now env site path in
  let code := substring_from 1 path in
  (forall p, In (AnalyticsWrite p) (effects o) ->
     p = mkDataPoint [get M code] [1] /\
     reserved path = false /\ code <> "" /\ truthy (get M code) = true) /\
  (status_of o = Some 200 \/ status_of o = Some 404 ->
   forall p, ~ In (AnalyticsWrite p) (effects o)) /\
  (forall target,
     result o = Returns (mkResponse 301 [("Location", target)] BodyNull) ->
     exists v,
       own_property M code = Some v /\ href v = Some target /\
       effects o =
         [ConsoleLog [VString "Redirecting "; VString code; VString " to "; VString v];
          AnalyticsWrite (mkDataPoint [VString v] [1])]).
Proof.
  cbv zeta. unfold handle, status_of, fetch, reserved. cbn [pathname origin].
  destruct (String.eqb path "/").
  { cbn. repeat split; try tauto; try discriminate. }
  destruct (String.eqb path "/api/urls").
  { cbn. repeat split; try tauto; try discriminate. }
  destruct (String.eqb path "/health").
  { cbn. repeat split; try tauto; try discriminate. }
  destruct (String.eqb (substring_from 1 path) "") eqn:Hcode.
  { cbn. repeat split; try tauto; try discriminate. }
  apply String.eqb_neq in Hcode.
  destruct (truthy (get M (substring_from 1 path))) eqn:Ht.
  - assert (W : forall (p : DataPoint) (l : event),
               In (AnalyticsWrite p)
                 [l; AnalyticsWrite (mkDataPoint [get M (substring_from 1 path)] [1])] ->
               l = ConsoleLog [VString "Redirecting "; VString (substring_from 1 path);
                               VString " to "; get M (substring_from 1 path)] ->
               p = mkDataPoint [get M (substring_from 1 path)] [1]).
    { intros p l [E|[E|[]]] ->; [discriminate|now inversion E]. }
    destruct (writeDataPoint env _); cbn [effects result].
    + split; [|split].
      * intros p Hp. split; [now apply (W p _ Hp)|now repeat split].
      * unfold Response_redirect.
        destruct (get M (substring_from 1 path)) as [|v|n]; cbn;
          try (intros [E|E]; discriminate).
        destruct (href v); cbn; intros [E|E]; discriminate.
      * intros target. unfold get, Response_redirect.
        destruct (own_property M (substring_from 1 path)) as [v|].
        -- destruct (href v) as [u|] eqn:Hu; [|discriminate].
           intros E. inversion E; subst. exists v.
           split; [reflexivity|]. split; [exact Hu|reflexivity].
        -- destruct (existsb _ _); discriminate.
    + split; [|split].
      * intros p Hp. split; [now apply (W p _ Hp)|now repeat split].
      * intros [E|E]; discriminate.
      * discriminate.
  - rewrite suggest_returns. cbn [effects result]. split; [|split].
    + intros p [E|[]]. discriminate.
    + intros _ p [E|[]]. discriminate.
    + cbn. discriminate.
Qed.

(** ** The two copies of the worker *)

(** X12.  When the analytics sink returns, the two copies of the worker
    give the same status and the same headers on every request, or both
    throw. *)
Theorem copies_agree_on_status_and_headers (href : string -> option string)
    (M : mapping) (now : string) (request : Request) (env : Env) :
  (forall p, writeDataPoint env p = Returns tt) ->
  Part000.head_of (Part000.fetch href M now request env) =
  head_of (fetch href M now request env).
Proof.
  intros Hsink. unfold Part000.head_of, head_of, Part000.fetch, fetch.
  destruct (String.eqb (pathname request) "/"); [reflexivity|].
  destruct (String.eqb (pathname request) "/api/urls"); [reflexivity|].
  destruct (String.eqb (pathname request) "/health"); [reflexivity|].
  destruct (String.eqb (substring_from 1 (pathname request)) ""); [reflexivity|].
  destruct (truthy (get M (substring_from 1 (pathname request)))).
  - rewrite Hsink. unfold Part000.Response_redirect, Response_redirect.
    destruct (get M (substring_from 1 (pathname request))) as [|v|n];
      try reflexivity.
    now destruct (href v).
  - now rewrite suggest_returns.
Qed.

Lemma copies_agree_on_status_and_headers_witness :
  Part000.head_of (Part000.fetch sample_href demo "2024-05-01T10:00:00.000Z"
                     (mkRequest "https://s.io" "/docs") sink_ok) =
  head_of (fetch sample_href demo "2024-05-01T10:00:00.000Z"
             (mkRequest "https://s.io" "/docs") sink_ok).
Proof.
  apply (@copies_agree_on_status_and_headers sample_href demo
           "2024-05-01T10:00:00.000Z" (mkRequest "https://s.io" "/docs") sink_ok).
  intros p. reflexivity.
Defined.

(** X13.  On a miss the other copy lists the first keys of the mapping,
    whatever the short code is: the keys of its first five entries, all
    of them and no ellipsis when the mapping has at most five entries, an
    ellipsis after the five when it has more. *)
Theorem other_copy_lists_the_first_keys (href : string -> option string)
    (M : mapping) (now : string) (request : Request) (env : Env) :
  reserved (pathname request) = false ->
  substring_from 1 (pathname request) <> "" ->
  truthy (get M (substring_from 1 (pathname request))) = false ->
  exists listed ellipsis,
    Part000.result (Part000.fetch href M now request env) =
      Returns (Part000.mkResponse 404
        [("Content-Type", "text/html"); ("Cache-Control", "public, max-age=300")]
        (Part000.BodyNotFoundPage (substring_from 1 (pathname request))
           (String.concat ", " listed) ellipsis (origin request))) /\
    listed = map fst (firstn 5 M) /\
    List.length listed = Nat.min 5 (List.length M) /\
    (forall k, In k listed -> exists v, In (k, v) M) /\
    (List.length M <= 5 -> listed = map fst M /\ ellipsis = "") /\
    (5 < List.length M -> ellipsis = "...").
Proof.
  intros Hres Hcode Ht.
  exists (map fst (firstn 5 M)), (if 5 <? List.length M then "..." else "").
  split; [|split; [|split; [|split; [|split]]]].
  - unfold Part000.fetch.
    destruct (reserved_false _ Hres) as (-> & -> & ->).
    rewrite (@nonempty_eqb _ Hcode), Ht.
    unfold Object_keys. now rewrite firstn_map, length_map.
  - reflexivity.
  - now rewrite length_map, length_firstn.
  - intros k Hk. apply in_map_iff in Hk. destruct Hk as [[k' v] [<- Hin]].
    exists v. now apply In_firstn in Hin.
  - intros Hle. split; [now rewrite firstn_all2|].
    destruct (5 <? List.length M) eqn:E; [|reflexivity].
    apply Nat.ltb_lt in E. lia.
  - intros Hlt. apply Nat.ltb_lt in Hlt. now rewrite Hlt.
Qed.

Lemma other_copy_lists_the_first_keys_witness :
  exists listed ellipsis,
    Part000.result (Part000.fetch sample_href demo "2024-05-01T10:00:00.000Z"
                      (mkRequest "https://s.io" "/zzzzzz") sink_ok) =
      Returns (Part000.mkResponse 404
        [("Content-Type", "text/html"); ("Cache-Control", "public, max-age=300")]
        (Part000.BodyNotFoundPage "zzzzzz" (String.concat ", " listed) ellipsis
           "https://s.io")) /\
    listed = map fst (firstn 5 demo) /\
    List.length listed = Nat.min 5 (List.length demo) /\
    (forall k, In k listed -> exists v, In (k, v) demo) /\
    (List.length demo <= 5 -> listed = map fst demo /\ ellipsis = "") /\
    (5 < List.length demo -> ellipsis = "...").
Proof.
  apply (@other_copy_lists_the_first_keys sample_href demo "2024-05-01T10:00:00.000Z"
           (mkRequest "https://s.io" "/zzzzzz") sink_ok).
  - reflexivity.
  - discriminate.
  - reflexivity.
Defined.

(** ** The build script: replacing the placeholder *)

Lemma substring_to_from (n : nat) (s : string) :
  (substring_to n s ++ substring_from n s)%string = s.
Proof.
  revert s. induction n as [|n IH]; intros [|c s]; simpl; try reflexivity.
  now rewrite IH.
Qed.

Lemma substring_from_add (n m : nat) (s : string) :
  substring_from (n + m) s = substring_from m (substring_from n s).
Proof.
  revert s. induction n as [|n IH]; intros s; [reflexivity|].
  destruct s as [|c s]; simpl; [now destruct m|apply IH].
Qed.

Lemma starts_with_split (pat s : string) :
  starts_with pat s = true ->
  s = (pat ++ substring_from (String.length pat) s)%string.
Proof.
  revert s. induction pat as [|a pat IH]; intros s H; [reflexivity|].
  destruct s as [|b s]; simpl in H; [discriminate|].
  apply andb_true_iff in H. destruct H as [E H].
  apply Ascii.eqb_eq in E. subst b. simpl. f_equal. now apply IH.
Qed.

Lemma indexOf_found (pat s : string) (pos : nat) :
  indexOf pat s = Some pos ->
  starts_with pat (substring_from pos s) = true /\
  forall q, q < pos -> starts_with pat (substring_from q s) = false.
Proof.
  revert pos. induction s as [|c s IH]; intros pos H.
  - simpl in H. destruct (starts_with pat "") eqn:E; [|discriminate].
    inversion H; subst. split; [exact E|]. intros q Hq. lia.
  - cbn [indexOf] in H. destruct (starts_with pat (String c s)) eqn:E.
    + inversion H; subst. split; [exact E|]. intros q Hq. lia.
    + destruct (indexOf pat s) as [n|]; [|discriminate].
      inversion H; subst. destruct (IH n eq_refl) as [H1 H2].
      split; [exact H1|]. intros [|q] Hq; [exact E|]. apply H2. lia.
Qed.

Lemma GetSubstitution_plain (matched before after replacement : string) :
  includes replacement "$" = false ->
  GetSubstitution matched before after replacement = replacement.
Proof.
  unfold includes, code_units.
  induction replacement as [|c r IH]; intros H; [reflexivity|].
  cbn [existsb list_ascii_of_string] in H.
  apply orb_false_elim in H. destruct H as [Hc Hr].
  cbn [GetSubstitution]. rewrite (Ascii.eqb_sym c "$"), Hc. f_equal. now apply IH.
Qed.

(** X14.  [replace] with the placeholder as its pattern: when the source
    holds the placeholder and the replacement text holds no dollar sign,
    the result is the source with the first placeholder, and that one
    only, replaced by the text as it is; a source without the placeholder
    comes back unchanged. *)
Theorem placeholder_replaced_once (source pattern replacement : string) :
  includes replacement "$" = false ->
  (indexOf pattern source = None -> String_replace source pattern replacement = source) /\
  (forall pos, indexOf pattern source = Some pos ->
     let before := substring_to pos source in
     let after := substring_from (pos + String.length pattern) source in
     source = (before ++ pattern ++ after)%string /\
     String_replace source pattern replacement = (before ++ replacement ++ after)%string /\
     forall q, q < pos -> starts_with pattern (substring_from q source) = false).
Proof.
  intros Hplain. split.
  - intros H. unfold String_replace. now rewrite H.
  - intros pos H. cbv zeta. destruct (indexOf_found _ _ H) as [Hat Hfirst].
    split; [|split].
    + rewrite substring_from_add, <- (starts_with_split _ _ Hat).
      symmetry. apply substring_to_from.
    + unfold String_replace. rewrite H. cbv zeta.
      now rewrite GetSubstitution_plain.
    + exact Hfirst.
Qed.

Lemma placeholder_replaced_once_witness :
  (indexOf PLACEHOLDER "const URL_MAPPINGS = __URL_MAPPINGS__;" = None ->
   String_replace "const URL_MAPPINGS = __URL_MAPPINGS__;" PLACEHOLDER "{}" =
     "const URL_MAPPINGS = __URL_MAPPINGS__;") /\
  (forall pos, indexOf PLACEHOLDER "const URL_MAPPINGS = __URL_MAPPINGS__;" = Some pos ->
     let before := substring_to pos "const URL_MAPPINGS = __URL_MAPPINGS__;" in
     let after := substring_from (pos + String.length PLACEHOLDER)
                    "const URL_MAPPINGS = __URL_MAPPINGS__;" in
     "const URL_MAPPINGS = __URL_MAPPINGS__;" = (before ++ PLACEHOLDER ++ after)%string /\
     String_replace "const URL_MAPPINGS = __URL_MAPPINGS__;" PLACEHOLDER "{}" =
       (before ++ "{}" ++ after)%string /\
     forall q, q < pos ->
       starts_with PLACEHOLDER
         (substring_from q "const URL_MAPPINGS = __URL_MAPPINGS__;") = false).
Proof.
  apply (@placeholder_replaced_once "const URL_MAPPINGS = __URL_MAPPINGS__;"
           PLACEHOLDER "{}").
  reflexivity.
Defined.


(** ** The build script: [main] *)

Section BuildFacts.

Variable double : Type.
Variable double_of_nat : nat -> double.
Variable JSON_parse : string -> completion (jvalue double).
Variable JSON_stringify : jvalue double -> nat -> string.
Variable URL_parses : jvalue double -> bool.
Variable now : string.

Local Abbreviation check := (check_entry URL_parses).
Local Abbreviation errors := (entry_errors URL_parses).
Local Abbreviation ok := (entry_ok URL_parses).
Local Abbreviation build := (main double_of_nat JSON_parse JSON_stringify URL_parses now).

Lemma check_entry_run (entry : string * jvalue double) (hasErrors : bool)
    (w : world double) :
  check entry hasErrors w =
  ((fst w, snd w ++ errors entry), Next (hasErrors || negb (ok entry))).
Proof.
  destruct w as [fs log], entry as [key value].
  unfold check_entry, entry_errors, entry_ok, build_accepts_key, script_bind,
    console_log, ret.
  cbn [fst snd].
  destruct (is_string value), (includes key "/" || includes key " " || includes key "?"),
    (URL_parses value), hasErrors; cbn;
    rewrite <- ?app_assoc, ?app_nil_r; reflexivity.
Qed.

(** The loop runs over every entry, whatever it finds. *)
Lemma validation_run (entries : list (string * jvalue double)) (hasErrors : bool)
    (w : world double) :
  for_of entries check hasErrors w =
  ((fst w, snd w ++ flat_map errors entries),
   Next (hasErrors || negb (forallb ok entries))).
Proof.
  revert hasErrors w. induction entries as [|e l IH]; intros h w.
  - destruct w. cbn. now rewrite app_nil_r, orb_false_r.
  - cbn [for_of]. unfold script_bind at 1. rewrite check_entry_run, IH.
    cbn [fst snd flat_map forallb]. rewrite <- app_assoc.
    now destruct h, (ok e), (forallb ok l).
Qed.

Lemma preview_run (pairs : list (string * jvalue double)) (w : world double) :
  for_of pairs
    (fun (pair : string * jvalue double) (_ : unit) (w0 : world double) =>
       ((fst w0, snd w0 ++ [LogSample (fst pair) (snd pair)]), Next tt)) tt w =
  ((fst w, snd w ++ map (fun pair => LogSample (fst pair) (snd pair)) pairs), Next tt).
Proof.
  revert w. induction pairs as [|e l IH]; intros w.
  - destruct w. cbn. now rewrite app_nil_r.
  - cbn [for_of]. unfold script_bind at 1. rewrite IH.
    cbn [fst snd map]. now rewrite <- app_assoc.
Qed.

Lemma lookup_here (fs : filesystem) (p : string) (n : node) :
  lookup ((p, n) :: fs) p = Some n.
Proof. cbn [lookup]. now rewrite String.eqb_refl. Qed.

Lemma lookup_skip (fs : filesystem) (q p : string) (n : node) :
  String.eqb q p = false -> lookup ((q, n) :: fs) p = lookup fs p.
Proof. intros H. cbn [lookup]. now rewrite H. Qed.

Ltac run_script :=
  unfold main, try_catch, script_bind, console_log, existsSync, mkdirSync,
    readFileSync, writeFileSync, process_exit, ret;
  change (path_dirname WORKER_OUTPUT) with "dist";
  change (path_dirname "dist/build-info.json") with "dist";
  cbn [fst snd].

Ltac step_script :=
  repeat (progress
    (repeat match goal with
            | H : lookup _ _ = _ |- _ => rewrite H
            | H : JSON_parse _ = _ |- _ => rewrite H
            | H : forallb _ _ = _ |- _ => rewrite H
            | H : includes_string _ _ = _ |- _ => rewrite H
            end;
     rewrite ?validation_run, ?preview_run, ?lookup_here;
     rewrite ?lookup_skip by reflexivity;
     cbn [negb fst snd orb])).

Ltac failed_build :=
  split; [right; reflexivity|];
  split; [discriminate|];
  intros _ Hinfo_ok; rewrite ?lookup_skip by reflexivity;
  solve [reflexivity | congruence].

(** X15.  One entry that fails a test fails the build: [main] prints a
    line for every test that every entry fails, not for the first only,
    ends the process with code 1, and has written no file; the one change
    it may leave is the [dist] directory, made before [urls.json] is
    read. *)
Theorem invalid_entry_fails_the_build (fs : filesystem) (text : string)
    (members : list (string * jvalue double)) :
  lookup fs URLS_FILE = Some (File text) ->
  JSON_parse text = Returns (JVObject members) ->
  forallb ok members = false ->
  let created := match lookup fs "dist" with None => true | Some _ => false end in
  build (fs, []) =
    ((if created then ("dist", Directory) :: fs else fs,
      [LogBuilding] ++
      (if created then [LogCreatedDirectory "dist"] else []) ++
      [LogReadingUrls URLS_FILE; LogFound (List.length members)] ++
      flat_map errors members ++ [ErrFixErrors]),
     Exit 1).
Proof.
  intros Hfile Hparse Hbad. cbv zeta. run_script.
  destruct (lookup fs "dist") as [[|]|] eqn:Hdist; step_script;
    rewrite <- ?app_assoc; reflexivity.
Qed.



(** X17.  [main] ends with exit code 0 or 1, whatever it finds.  It ends
    with 0 only if [urls.json] is a file that parses to an object whose
    entries all pass, the worker source is a file that holds the
    placeholder, [dist] is not a file and neither output path is a
    directory.  And a build that fails leaves [dist/worker.js] as it was,
    unless it is the write of [dist/build-info.json] that failed. *)
Theorem build_exit_code (fs : filesystem) :
  let r := build (fs, []) in
  (snd r = Next tt \/ snd r = Exit 1) /\
  (snd r = Next tt ->
     (lookup fs "dist" = None \/ lookup fs "dist" = Some Directory) /\
     exists text members source,
       lookup fs URLS_FILE = Some (File text) /\
       JSON_parse text = Returns (JVObject members) /\
       forallb ok members = true /\
       lookup fs WORKER_SOURCE = Some (File source) /\
       includes_string source PLACEHOLDER = true /\
       lookup fs WORKER_OUTPUT <> Some Directory /\
       lookup fs "dist/build-info.json" <> Some Directory) /\
  (snd r = Exit 1 ->
   lookup fs "dist/build-info.json" <> Some Directory ->
   lookup (fst (fst r)) WORKER_OUTPUT = lookup fs WORKER_OUTPUT).
Proof.
  cbv zeta. run_script.
  destruct (lookup fs "dist") as [[t0|]|] eqn:Hdist;
    (destruct (lookup fs URLS_FILE) as [[text|]|] eqn:Hurls; step_script;
     [|failed_build|failed_build]);
    (destruct (JSON_parse text) as [v|] eqn:Hparse; step_script; [|failed_build]);
    (destruct v as [| | | | |members]; step_script; try failed_build);
    (destruct (forallb ok members) eqn:Hok; step_script; [|failed_build]);
    (destruct (lookup fs WORKER_SOURCE) as [[source|]|] eqn:Hsrc; step_script;
     [|failed_build|failed_build]);
    (destruct (includes_string source PLACEHOLDER) eqn:Hinc; step_script;
     [|failed_build]);
    (destruct (lookup fs WORKER_OUTPUT) as [[t1|]|] eqn:Hout; step_script;
     try failed_build);
    (destruct (lookup fs "dist/build-info.json") as [[t2|]|] eqn:Hinfo; step_script;
     try failed_build);
    (destruct (0 <? List.length (firstn 3 members)); step_script;
     try (destruct (3 <? List.length members)));
    (split; [left; reflexivity|]; split; [|discriminate]; intros _;
     split; [auto|]; exists text, members, source; repeat split; congruence).
Qed.

End BuildFacts.

Lemma invalid_entry_fails_the_build_witness :
  main (fun n : nat => n) sample_parse sample_stringify sample_url_parses
    "2024-05-01T10:00:00.000Z" (sample_disk "bad", []) =
  ((("dist", Directory) :: sample_disk "bad",
    [LogBuilding; LogCreatedDirectory "dist"; LogReadingUrls URLS_FILE; LogFound 2;
     ErrInvalidKey "my docs"; ErrInvalidUrl (JVString "example.com") "my docs";
     ErrFixErrors]),
   Exit 1).
Proof.
  apply (@invalid_entry_fails_the_build nat (fun n : nat => n) sample_parse
           sample_stringify sample_url_parses "2024-05-01T10:00:00.000Z"
           (sample_disk "bad") "bad"
           [("gh", JVString "https://github.com/");
            ("my docs", JVString "example.com")]).
  - reflexivity.
  - reflexivity.
  - reflexivity.
Defined.


(** ** The build script and the worker together *)

Lemma reserved_key_cases (k : string) :
  reserved ("/" ++ k)%string =
  String.eqb k "" || String.eqb k "api/urls" || String.eqb k "health".
Proof. reflexivity. Qed.

Lemma accepted_key_is_no_route (k : string) :
  build_accepts_key k = true -> String.eqb k "api/urls" = false.
Proof.
  intros H. destruct (String.eqb k "api/urls") eqn:E; [|reflexivity].
  apply String.eqb_eq in E. subst k. discriminate H.
Qed.

Lemma reserved_status (href : string -> option string) (M : mapping)
    (now : string) (request : Request) (env : Env) :
  status_of (fetch href M now request env) = Some 200 <->
  reserved (pathname request) = true.
Proof.
  pose proof (fetch_result href M now request env) as C. cbv zeta in C.
  destruct C as [(Hres & R)|[(Hres & Hc & R)|[(Hres & Hc & Ht & R)|
    [(Hres & Hc & Hi & R)|[(v & Hres & Hc & Ho & Hv & Hs & R)|
     [(v & Hres & Hc & Ho & Hv & Hs & Hu & R)|
      (v & u & Hres & Hc & Ho & Hv & Hs & Hu & R)]]]]]];
    try (rewrite R); try (unfold status_of; rewrite R; cbn [status]);
    rewrite Hres; split; try discriminate; try reflexivity; congruence.
Qed.

(** X18.  A request whose pathname is a slash followed by a key [k] that
    the build script accepts is answered by a reserved route, with status
    200 and no redirect, exactly when [k] is the empty key, whose path is
    that of the home page, or ["health"].  It is never answered by
    ["/api/urls"]: a key with a slash is refused by the build.  (A key
    such as [".."], of which no request has the path, since the URL parser
    resolves it, is not spoken of.) *)
Theorem accepted_keys_shadowed_by_routes (href : string -> option string)
    (M : mapping) (now : string) (request : Request) (env : Env) (k : string) :
  build_accepts_key k = true ->
  pathname request = ("/" ++ k)%string ->
  (reserved (pathname request) = true <-> k = "" \/ k = "health") /\
  (status_of (fetch href M now request env) = Some 200 <-> k = "" \/ k = "health") /\
  pathname request <> "/api/urls".
Proof.
  intros H Hp.
  assert (E : reserved (pathname request) = true <-> k = "" \/ k = "health").
  { rewrite Hp, reserved_key_cases, (accepted_key_is_no_route _ H), orb_false_r.
    rewrite orb_true_iff, !String.eqb_eq. reflexivity. }
  split; [exact E|]. split; [now rewrite reserved_status|].
  rewrite Hp. intros Heq. inversion Heq; subst k. discriminate H.
Qed.

Lemma accepted_keys_shadowed_by_routes_witness :
  (reserved (pathname (mkRequest "https://s.io" "/health")) = true <->
   "health" = "" \/ "health" = "health") /\
  (status_of (fetch sample_href demo "2024-05-01T10:00:00.000Z"
                (mkRequest "https://s.io" "/health") sink_ok) = Some 200 <->
   "health" = "" \/ "health" = "health") /\
  pathname (mkRequest "https://s.io" "/health") <> "/api/urls".
Proof.
  apply (@accepted_keys_shadowed_by_routes sample_href demo "2024-05-01T10:00:00.000Z"
           (mkRequest "https://s.io" "/health") sink_ok "health").
  - reflexivity.
  - reflexivity.
Defined.
